(** * Login_Portal: the authentication core of [server/auth.ts]

    A shallow embedding of the credential hasher ([hashPassword],
    [comparePasswords]), of the passport local strategy, of the four
    routes installed by [setupAuth] ([/api/register], [/api/login],
    [/api/logout], [/api/user]), of the storage behind them
    ([server/storage.ts]), of the import and seeding scripts and of the
    form schemas of the client, followed by the properties the
    specification states about them and by further properties of the
    code. *)

From Stdlib Require Import ZArith NArith String Ascii List Lia.
From Stdlib Require Import Strings.Byte.
From stdpp Require Import base option list gmap strings finite.

Local Open Scope string_scope.
Local Open Scope Z_scope.

(** ** Results of fallible JavaScript code

    An [async] function either resolves to a value or rejects with an
    error; [Throw] is the rejected promise (or the thrown exception). *)

Inductive Error :=
| ERR_INVALID_ARG_TYPE                 (* TypeError raised by [scrypt] on a non-string salt *)
| ERR_CRYPTO_TIMING_SAFE_EQUAL_LENGTH  (* RangeError raised by [timingSafeEqual] *)
| ZodError                             (* [userDbSchema.parse] failed *)
| DatabaseError                        (* the insert was refused by the table *)
| InsertedUserNotFound                 (* [Failed to retrieve inserted user] *)
| UserNotFound.                        (* [User with id ... not found] *)

Inductive result (A : Type) :=
| Ok (a : A)
| Throw (e : Error).
Arguments Ok {A} a.
Arguments Throw {A} e.

Definition bind {A B} (r : result A) (k : A -> result B) : result B :=
  match r with
  | Ok a => k a
  | Throw e => Throw e
  end.

Notation "'await' x <- r ; k" := (bind r (fun x => k))
  (at level 10, x name, r at level 100, k at level 200).

(** ** Buffers and their hexadecimal encoding *)

Module Hex.

(** [buf.toString("hex")]: two lower-case digits per byte. *)
Definition hex_digit (n : N) : ascii :=
  match n with
  | 0 => "0" | 1 => "1" | 2 => "2" | 3 => "3" | 4 => "4" | 5 => "5"
  | 6 => "6" | 7 => "7" | 8 => "8" | 9 => "9" | 10 => "a" | 11 => "b"
  | 12 => "c" | 13 => "d" | 14 => "e" | _ => "f"
  end%N%char.

Definition hex_of_byte (b : byte) : string :=
  String (hex_digit (Byte.to_N b / 16)) (String (hex_digit (Byte.to_N b mod 16)) EmptyString).

Fixpoint toString_hex (buf : list byte) : string :=
  match buf with
  | [] => EmptyString
  | b :: rest => hex_of_byte b +:+ toString_hex rest
  end.

(** Value of one hexadecimal digit, either case, from its character
    code; [None] for any other character. *)
Definition hex_value (c : ascii) : option N :=
  let code := N_of_ascii c in
  (if (48 <=? code) && (code <=? 57) then Some (code - 48)          (* 0-9 *)
   else if (97 <=? code) && (code <=? 102) then Some (code - 87)    (* a-f *)
   else if (65 <=? code) && (code <=? 70) then Some (code - 55)     (* A-F *)
   else None)%N.

(** [Buffer.from(s, "hex")]: decodes pairs of digits and stops, without
    an error, at the first pair that is not hexadecimal; a trailing
    single character is dropped. *)
Fixpoint Buffer_from_hex (s : string) : list byte :=
  match s with
  | String hi (String lo rest) =>
      match hex_value hi, hex_value lo with
      | Some h, Some l =>
          match Byte.of_N (16 * h + l) with
          | Some b => b :: Buffer_from_hex rest
          | None => []
          end
      | _, _ => []
      end
  | _ => []
  end.

Definition is_hex (c : ascii) : bool :=
  match hex_value c with Some _ => true | None => false end.

Fixpoint all_hex (s : string) : bool :=
  match s with
  | EmptyString => true
  | String c rest => is_hex c && all_hex rest
  end.

End Hex.

(** [s.split(".")]: the pieces of [s] between the dots; never empty. *)
Fixpoint split_dot (s : string) : list string :=
  match s with
  | EmptyString => [EmptyString]
  | String c rest =>
      if Ascii.eqb c "."
      then EmptyString :: split_dot rest
      else match split_dot rest with
           | p :: ps => String c p :: ps
           | [] => [String c EmptyString]
           end
  end.

Fixpoint has_dot (s : string) : bool :=
  match s with
  | EmptyString => false
  | String c rest => Ascii.eqb c "." || has_dot rest
  end.

(** ** The key-derivation primitive

    [crypto.scrypt(password, salt, keylen)] comes from the Node runtime.
    The embedding takes it as an interface: a deterministic function of
    the password and the salt whose result has [keylen] bytes. *)

Class Scrypt := {
  scrypt : string -> string -> nat -> list byte;
  scrypt_length : forall password salt keylen,
    length (scrypt password salt keylen) = keylen
}.

(** [crypto.randomBytes(n)]: the next [n] bytes of the entropy source,
    which is a stream of bytes read from a cursor. *)
Definition randomBytes (n : nat) (rng : nat -> byte) (pos : nat) : list byte * nat :=
  (map rng (seq pos n), (pos + n)%nat).

Global Instance byte_eq_decision : EqDecision byte := Byte.byte_eq_dec.

(** [crypto.timingSafeEqual(a, b)]: throws on buffers of different
    lengths, compares the contents otherwise. *)
Definition timingSafeEqual (a b : list byte) : result bool :=
  if Nat.eqb (length a) (length b)
  then Ok (bool_decide (a = b))
  else Throw ERR_CRYPTO_TIMING_SAFE_EQUAL_LENGTH.

Section Hasher.
Context {K : Scrypt}.

(** The digest built from a password and the bytes drawn for its salt. *)
Definition digest_of (password : string) (saltBytes : list byte) : string :=
  let salt := Hex.toString_hex saltBytes in
  let buf := scrypt password salt 64 in
  Hex.toString_hex buf +:+ "." +:+ salt.

(** [hashPassword]: draws 16 random bytes for the salt. *)
Definition hashPassword (password : string) (rng : nat -> byte) (pos : nat)
  : string * nat :=
  let '(saltBytes, pos') := randomBytes 16 rng pos in
  (digest_of password saltBytes, pos').

(** [comparePasswords]: [const [hashed, salt] = stored.split(".")] leaves
    [salt] undefined when [stored] has no dot, and [scrypt] rejects an
    undefined salt. *)
Definition comparePasswords (supplied stored : string) : result bool :=
  let parts := split_dot stored in
  let hashed := default EmptyString (parts !! 0%nat) in
  let hashedBuf := Hex.Buffer_from_hex hashed in
  await suppliedBuf <-
    match parts !! 1%nat with
    | Some salt => Ok (scrypt supplied salt 64)
    | None => Throw ERR_INVALID_ARG_TYPE
    end;
  timingSafeEqual hashedBuf suppliedBuf.

End Hasher.

(** ** Data model

    JSON values as far as the routes produce them. *)

Inductive jsval :=
| JNull
| JNum (n : Z)
| JStr (s : string)
| JDate (ms : Z).

(** A row of the [users] table ([typeof users.$inferSelect]); a nullable
    column is an [option], [None] being SQL [NULL]. *)
Record User := {
  id : Z;
  firstName : string;
  lastName : string;
  username : string;
  email : option string;
  phone : option string;
  password : string;
  authCode : option string;
  createdAt : Z
}.

(** The record handed to [storage.createUser] ([DbUser]). *)
Record DbUser := {
  db_username : string;
  db_password : string;
  db_firstName : string;
  db_lastName : string;
  db_email : option string;
  db_phone : option string;
  db_authCode : option string
}.

Definition nullable (v : option string) : jsval :=
  match v with
  | Some s => JStr s
  | None => JNull
  end.

(** The row as the JavaScript object the ORM returns. *)
Definition user_object (u : User) : gmap string jsval :=
  <["id" := JNum (id u)]>
  (<["firstName" := JStr (firstName u)]>
  (<["lastName" := JStr (lastName u)]>
  (<["username" := JStr (username u)]>
  (<["email" := nullable (email u)]>
  (<["phone" := nullable (phone u)]>
  (<["password" := JStr (password u)]>
  (<["authCode" := nullable (authCode u)]>
  (<["createdAt" := JDate (createdAt u)]> ∅)))))))).

(** [const { password, ...userWithoutPassword } = user]. *)
Definition userWithoutPassword (user : User) : gmap string jsval :=
  delete "password" (user_object user).

(** A field of a parsed request body: a string, or [None] when the field
    is absent or [null].  The shared schema types every field of the two
    forms as a string. *)
Definition field := option string.

(** JavaScript truthiness of a field: absent and the empty string are
    falsy. *)
Definition truthy (v : field) : bool :=
  match v with
  | Some s => negb (String.eqb s "")
  | None => false
  end.

(** [v || null]. *)
Definition or_null (v : field) : option string :=
  if truthy v then v else None.

(** The string held by a field that has been tested truthy. *)
Definition str (v : field) : string := default "" v.

Record RegisterBody := {
  reg_username : field;
  reg_password : field;
  reg_firstName : field;
  reg_lastName : field;
  reg_email : field;
  reg_phone : field;
  reg_authCode : field;
  reg_captchaToken : field;
  reg_confirmPassword : field
}.

(** The same form with another captcha token. *)
Definition with_captchaToken (token : field) (b : RegisterBody) : RegisterBody :=
  {| reg_username := reg_username b;
     reg_password := reg_password b;
     reg_firstName := reg_firstName b;
     reg_lastName := reg_lastName b;
     reg_email := reg_email b;
     reg_phone := reg_phone b;
     reg_authCode := reg_authCode b;
     reg_captchaToken := token;
     reg_confirmPassword := reg_confirmPassword b |}.

(** The same form with other contact fields. *)
Definition with_contact (mail tel : field) (b : RegisterBody) : RegisterBody :=
  {| reg_username := reg_username b;
     reg_password := reg_password b;
     reg_firstName := reg_firstName b;
     reg_lastName := reg_lastName b;
     reg_email := mail;
     reg_phone := tel;
     reg_authCode := reg_authCode b;
     reg_captchaToken := reg_captchaToken b;
     reg_confirmPassword := reg_confirmPassword b |}.

Record LoginBody := {
  login_username : field;
  login_password : field;
  login_captchaToken : field
}.

(** ** The user directory ([server/storage.ts], over the [users] table)

    A JavaScript string is a Rocq string with one character per UTF-16
    code unit, for code units up to 255: its [String.length] is the
    [length] that zod tests and the number of characters that PostgreSQL
    counts. *)

Record Storage := {
  rows : list User;
  serial : Z
}.

(** [db.query.users.findFirst] with [eq(users.username, username)]: the
    first row of that username, an exact, case-sensitive match; [None] is
    [undefined]. *)
Definition findFirst_username (db : Storage) (name : string) : option User :=
  List.find (fun u => String.eqb (username u) name) (rows db).

(** Modelled from the spec: PostgreSQL is not part of the sources.  A
    text value cannot hold the character U+0000; PostgreSQL refuses such
    a parameter. *)
Fixpoint has_nul (s : string) : bool :=
  match s with
  | EmptyString => false
  | String c rest => Ascii.eqb c Ascii.zero || has_nul rest
  end.

(** [storage.getUserByUsername]: that query, run with [username] as its
    parameter; the error of the database is thrown on. *)
Definition getUserByUsername (db : Storage) (name : string) : result (option User) :=
  if has_nul name then Throw DatabaseError
  else Ok (findFirst_username db name).

(** [storage.getUserById]: [findFirst] with [eq(users.id, id)]; a missing
    row is an error, [User with id ... not found]. *)
Definition getUserById (db : Storage) (i : Z) : result User :=
  match List.find (fun u => Z.eqb (id u) i) (rows db) with
  | Some found => Ok found
  | None => Throw UserNotFound
  end.

(** The validator behind [z.string().email()] belongs to the zod library
    and is taken as an interface. *)
Class EmailFormat := { is_email : string -> bool }.

(** *** What PostgreSQL does with the values of an insert

    Modelled from the spec: PostgreSQL and the drizzle ORM are not part
    of the sources; the table they work on is declared in
    [shared/schema.ts].  What follows is the documented behaviour of the
    database on the [varchar], [notNull], [unique] and [serial] columns
    of that table. *)

(** The values of [db.insert(users).values(...)]: a column left out, or
    given as [null], is [None]. *)
Record InsertValues := {
  iv_username : option string;
  iv_firstName : option string;
  iv_lastName : option string;
  iv_email : option string;
  iv_phone : option string;
  iv_password : option string;
  iv_authCode : option string
}.

Fixpoint all_blank (s : string) : bool :=
  match s with
  | EmptyString => true
  | String c rest => Ascii.eqb c " " && all_blank rest
  end.

Fixpoint take_chars (n : nat) (s : string) : string :=
  match n, s with
  | S m, String c rest => String c (take_chars m rest)
  | _, _ => EmptyString
  end.

Fixpoint drop_chars (n : nat) (s : string) : string :=
  match n, s with
  | S m, String c rest => drop_chars m rest
  | _, _ => s
  end.

(** Modelled from the spec: storing a value in a [varchar(n)] column of
    PostgreSQL.  A value of at most [n] characters is kept; a longer one
    is cut to [n] characters when all that exceeds is blanks, and refused
    otherwise. *)
Definition varchar (n : nat) (s : string) : option string :=
  if Nat.leb (String.length s) n then Some s
  else if all_blank (drop_chars n s) then Some (take_chars n s)
  else None.

Definition varchar_column (n : nat) (v : option string) : option (option string) :=
  match v with
  | Some s => Some <$> varchar n s
  | None => Some None
  end.

Definition opt_has_nul (v : option string) : bool :=
  match v with
  | Some s => has_nul s
  | None => false
  end.

Definition values_have_nul (v : InsertValues) : bool :=
  opt_has_nul (iv_username v) || opt_has_nul (iv_firstName v)
  || opt_has_nul (iv_lastName v) || opt_has_nul (iv_email v)
  || opt_has_nul (iv_phone v) || opt_has_nul (iv_password v)
  || opt_has_nul (iv_authCode v).

(** The values as the columns of [users] take them. *)
Definition stored_values (v : InsertValues) : option InsertValues :=
  name ← varchar_column 100 (iv_username v);
  first ← varchar_column 100 (iv_firstName v);
  last ← varchar_column 100 (iv_lastName v);
  mail ← varchar_column 255 (iv_email v);
  tel ← varchar_column 20 (iv_phone v);
  pass ← varchar_column 255 (iv_password v);
  code ← varchar_column 100 (iv_authCode v);
  Some {| iv_username := name; iv_firstName := first; iv_lastName := last;
          iv_email := mail; iv_phone := tel; iv_password := pass;
          iv_authCode := code |}.

(** [.notNull()] on a column without a default. *)
Definition not_null (v : option string) : bool :=
  match v with
  | Some _ => true
  | None => false
  end.

Definition opt_max_length (n : nat) (v : option string) : bool :=
  match v with
  | Some s => Nat.leb (String.length s) n
  | None => true
  end.

(** The constraints of the table on a row to be: the [notNull] columns
    are given and the username is not taken. *)
Definition insert_accepts (db : Storage) (v : InsertValues) : bool :=
  not_null (iv_firstName v) && not_null (iv_lastName v)
  && not_null (iv_username v) && not_null (iv_password v)
  && negb (bool_decide (is_Some (findFirst_username db (str (iv_username v))))).

(** The row an insert adds: [id] is drawn from the serial, [createdAt]
    defaults to the current time. *)
Definition inserted_row (db : Storage) (v : InsertValues) (now : Z) : User :=
  {| id := serial db;
     firstName := str (iv_firstName v);
     lastName := str (iv_lastName v);
     username := str (iv_username v);
     email := iv_email v;
     phone := iv_phone v;
     password := str (iv_password v);
     authCode := iv_authCode v;
     createdAt := now |}.

(** Modelled from the spec: [db.insert(users).values(v)] as PostgreSQL
    runs it; [true] when the row is added.  A value
    with U+0000 is refused as a parameter, before the statement runs.
    Otherwise the statement draws its [id] from the serial, which is not
    given back when a column or a constraint then refuses the row. *)
Definition db_insert (db : Storage) (v : InsertValues) (now : Z) : bool * Storage :=
  if values_have_nul v then (false, db)
  else
    let drawn := {| rows := rows db; serial := serial db + 1 |} in
    match stored_values v with
    | Some row =>
        if insert_accepts db row
        then (true, {| rows := (rows db ++ [inserted_row db row now])%list;
                       serial := serial db + 1 |})
        else (false, drawn)
    | None => (false, drawn)
    end.

Section Directory.
Context {E : EmailFormat}.

Definition min_length (n : nat) (s : string) : bool :=
  Nat.leb n (String.length s).

Definition max_length (n : nat) (s : string) : bool :=
  Nat.leb (String.length s) n.

Definition opt_all (p : string -> bool) (v : option string) : bool :=
  match v with
  | Some s => p s
  | None => true
  end.

(** [userDbSchema.parse(user)]. *)
Definition userDbSchema (user : DbUser) : bool :=
  min_length 2 (db_firstName user)
  && min_length 2 (db_lastName user)
  && min_length 3 (db_username user)
  && opt_all is_email (db_email user).

(** The values of [db.insert(users).values(validUser)]. *)
Definition values_of (user : DbUser) : InsertValues :=
  {| iv_username := Some (db_username user);
     iv_firstName := Some (db_firstName user);
     iv_lastName := Some (db_lastName user);
     iv_email := db_email user;
     iv_phone := db_phone user;
     iv_password := Some (db_password user);
     iv_authCode := db_authCode user |}.

(** [storage.createUser]: validate against [userDbSchema], insert, and
    read the row back by the username that was given; every error is
    thrown on.  The directory is returned in each case: a refused insert
    has drawn from the serial, and a row stored under a cut username is
    not found by the read. *)
Definition createUser (db : Storage) (user : DbUser) (now : Z)
  : result User * Storage :=
  if negb (userDbSchema user) then (Throw ZodError, db)
  else
    match db_insert db (values_of user) now with
    | (false, db') => (Throw DatabaseError, db')
    | (true, db') =>
        match getUserByUsername db' (db_username user) with
        | Ok (Some insertedUser) => (Ok insertedUser, db')
        | Ok None => (Throw InsertedUserNotFound, db')
        | Throw error => (Throw error, db')
        end
    end.

(** The user a record that fits its columns, has no U+0000 and names a
    free username is created as. *)
Definition new_user (db : Storage) (user : DbUser) (now : Z) : User :=
  inserted_row db (values_of user) now.

End Directory.

(** ** The session store *)

Record Session := {
  accountId : Z;
  sessionCreatedAt : Z;
  expiresAt : Z
}.

Module SessionStore.

(** Modelled from the spec: the memorystore library behind
    [storage.sessionStore] ([new MemoryStore(...)] in [server/storage.ts])
    is not part of the sources.  [create] persists a session for the
    account under the identifier given, expiring [ttl] after [now].  The
    result is what the store hands to the callback: the memory store
    never hands it an error. *)
Definition create (store : gmap nat Session) (sid : nat) (account : Z) (ttl now : Z)
  : result (gmap nat Session) :=
  Ok (<[sid := {| accountId := account;
                  sessionCreatedAt := now;
                  expiresAt := now + ttl |}]> store).

(** Modelled from the spec: [get] returns the session if present and not
    expired; an entry that has expired is as good as absent. *)
Definition get (store : gmap nat Session) (sid : nat) (now : Z) : option Session :=
  match store !! sid with
  | Some s => if Z.ltb now (expiresAt s) then Some s else None
  | None => None
  end.

(** Modelled from the spec: the store of the library also has [touch],
    by which a live session starts its time to live again. *)
Definition touch (store : gmap nat Session) (sid : nat) (ttl now : Z)
  : gmap nat Session :=
  match get store sid now with
  | Some s => <[sid := {| accountId := accountId s;
                          sessionCreatedAt := sessionCreatedAt s;
                          expiresAt := now + ttl |}]> store
  | None => store
  end.

(** Modelled from the spec: [destroy] removes the session; for a session
    that does not exist there is nothing to remove, and the memory store
    hands no error to the callback in either case. *)
Definition destroy (store : gmap nat Session) (sid : nat)
  : result (gmap nat Session) :=
  Ok (delete sid store).

End SessionStore.

(** ** The server state and the requests *)

(** express-session draws the identifier of a session at random, long
    enough that none comes twice; the model numbers the sessions in the
    order they are issued, so that an identifier is never issued again. *)
Record World := {
  db : Storage;
  sessions : gmap nat Session;
  issued : nat;           (* how many session identifiers have been issued *)
  rng : nat -> byte;      (* the entropy source *)
  rng_pos : nat           (* how much of it has been read *)
}.

(** What a request carries besides its body: the session identifier of
    its cookie, if any, the time it arrives, and the credentials of its
    query string, if any. *)
Record Context := {
  sessionID : option nat;
  now : Z;
  query_username : field;
  query_password : field
}.

Inductive Response :=
| json (status : Z) (body : gmap string jsval)   (* [res.status(n).json(body)] *)
| sendStatus (status : Z)                        (* [res.sendStatus(n)] *)
| next (err : Error).                            (* [next(err)] *)

Definition message (text : string) : gmap string jsval :=
  {[ "message" := JStr text ]}.

(** [cookie.maxAge]: one week, in milliseconds. *)
Definition maxAge : Z := 1000 * 60 * 60 * 24 * 7.

(** Modelled from the spec: passport and express-session are libraries,
    not part of the sources.  [req.login(user, cb)] regenerates the
    session: the session of the request's cookie is destroyed and one is
    issued, under an identifier never issued before, in which
    [passport.serializeUser] keeps [user.id].  An error of the store is
    what the callback gets. *)
Definition req_login (w : World) (ctx : Context) (user : User) : result World :=
  await kept <-
    match sessionID ctx with
    | Some old => SessionStore.destroy (sessions w) old
    | None => Ok (sessions w)
    end;
  await saved <- SessionStore.create kept (issued w) (id user) maxAge (now ctx);
  Ok {| db := db w; sessions := saved; issued := S (issued w);
        rng := rng w; rng_pos := rng_pos w |}.

(** Modelled from the spec: what [passport.session()] does before every
    route.  The account id of the live session of the cookie, if there is
    one, is handed to [passport.deserializeUser], which loads the account
    by [storage.getUserById] and passes its error on with [done(error)];
    [Ok None] is a request without [req.user]. *)
Definition deserializeUser (w : World) (ctx : Context) : result (option User) :=
  match sessionID ctx with
  | Some sid =>
      match SessionStore.get (sessions w) sid (now ctx) with
      | Some s =>
          await found <- getUserById (db w) (accountId s);
          Ok (Some found)
      | None => Ok None
      end
  | None => Ok None
  end.

(** Modelled from the spec: [req.logout(cb)] of passport destroys the
    session of the request, if there is one; an error of the store is
    what the callback gets. *)
Definition req_logout (w : World) (ctx : Context) : result World :=
  match sessionID ctx with
  | Some sid =>
      await rest <- SessionStore.destroy (sessions w) sid;
      Ok {| db := db w; sessions := rest;
            issued := issued w; rng := rng w; rng_pos := rng_pos w |}
  | None => Ok w
  end.

(** Modelled from the spec: when the response ends, express-session
    touches the session the request came with, if it is still there: its
    time to live starts again. *)
Definition touch_session (w : World) (ctx : Context) : World :=
  match sessionID ctx with
  | Some sid =>
      {| db := db w;
         sessions := SessionStore.touch (sessions w) sid maxAge (now ctx);
         issued := issued w; rng := rng w; rng_pos := rng_pos w |}
  | None => w
  end.

(** Modelled from the spec: passport-local is a library, not part of
    the sources.  It reads each credential as
    [lookup(req.body, field) || lookup(req.query, field)]. *)
Definition credential (fromBody fromQuery : field) : field :=
  if truthy fromBody then fromBody else fromQuery.

(** The credentials passport-local finds in a login request. *)
Definition given_username (ctx : Context) (b : LoginBody) : field :=
  credential (login_username b) (query_username ctx).

Definition given_password (ctx : Context) (b : LoginBody) : field :=
  credential (login_password b) (query_password ctx).

Section Routes.
Context {K : Scrypt} {E : EmailFormat}.

(** The callback of [new LocalStrategy(...)]: [done(null, false)] is
    [Ok None], [done(null, user)] is [Ok (Some user)], [done(error)] is
    [Throw error]. *)
Definition LocalStrategy (w : World) (name pass : string) : result (option User) :=
  await found <- getUserByUsername (db w) name;
  match found with
  | None => Ok None
  | Some user =>
      await matches <- comparePasswords pass (password user);
      if matches then Ok (Some user) else Ok None
  end.

(** Modelled from the spec: [passport.authenticate("local", callback)].
    passport-local fails the attempt itself when a credential is missing
    and runs the strategy otherwise; every failure reaches the callback
    of the route as [user = false]. *)
Definition authenticate (w : World) (name pass : field) : result (option User) :=
  if negb (truthy name) || negb (truthy pass) then Ok None
  else LocalStrategy w (str name) (str pass).

(** The three checks that open [/api/register]. *)
Definition register_validation (b : RegisterBody) : option Response :=
  if negb (truthy (reg_username b)) || negb (truthy (reg_password b))
     || negb (truthy (reg_firstName b)) || negb (truthy (reg_lastName b))
  then Some (json 400 (message
    "Missing required fields: username, password, firstName, and lastName are required"))
  else if negb (truthy (reg_email b)) && negb (truthy (reg_phone b))
  then Some (json 400 (message "Either email or phone number is required"))
  else if negb (bool_decide (reg_password b = reg_confirmPassword b))
  then Some (json 400 (message "Passwords do not match"))
  else None.

(** The record built for the database. *)
Definition userData (b : RegisterBody) (hashedPassword : string) : DbUser :=
  {| db_username := str (reg_username b);
     db_password := hashedPassword;
     db_firstName := str (reg_firstName b);
     db_lastName := str (reg_lastName b);
     db_email := or_null (reg_email b);
     db_phone := or_null (reg_phone b);
     db_authCode := or_null (reg_authCode b) |}.

(** [app.post("/api/register", ...)]. *)
Definition register (w : World) (ctx : Context) (b : RegisterBody) : Response * World :=
  match register_validation b with
  | Some rejection => (rejection, w)
  | None =>
      match getUserByUsername (db w) (str (reg_username b)) with
      | Throw error => (next error, w)
      | Ok (Some existingUser) => (json 400 (message "Username already exists"), w)
      | Ok None =>
          let '(hashedPassword, pos') :=
            hashPassword (str (reg_password b)) (rng w) (rng_pos w) in
          let '(created, db') :=
            createUser (db w) (userData b hashedPassword) (now ctx) in
          let w1 := {| db := db'; sessions := sessions w; issued := issued w;
                       rng := rng w; rng_pos := pos' |} in
          match created with
          | Throw error => (next error, w1)
          | Ok user =>
              match req_login w1 ctx user with
              | Throw err => (next err, w1)
              | Ok w2 => (json 201 (userWithoutPassword user), w2)
              end
          end
      end
  end.

(** The world in which [/api/register] calls [req.login]. *)
Definition registered_world (w : World) (db' : Storage) : World :=
  {| db := db'; sessions := sessions w; issued := issued w;
     rng := rng w; rng_pos := (rng_pos w + 16)%nat |}.

(** [app.post("/api/login", ...)]. *)
Definition login (w : World) (ctx : Context) (b : LoginBody) : Response * World :=
  if negb (truthy (login_captchaToken b))
  then (json 400 (message "CAPTCHA verification is required"), w)
  else
    match authenticate w (given_username ctx b) (given_password ctx b) with
    | Throw err => (next err, w)
    | Ok None => (json 401 (message "Invalid username or password"), w)
    | Ok (Some user) =>
        match req_login w ctx user with
        | Throw loginErr => (next loginErr, w)
        | Ok w' => (json 200 (userWithoutPassword user), w')
        end
    end.

(** [app.post("/api/logout", ...)]. *)
Definition logout (w : World) (ctx : Context) : Response * World :=
  match req_logout w ctx with
  | Throw err => (next err, w)
  | Ok w' => (sendStatus 200, w')
  end.

(** [app.get("/api/user", ...)]; [req.isAuthenticated()] is [req.user]
    being set. *)
Definition user (w : World) (req_user : option User) : Response * World :=
  match req_user with
  | None => (json 401 (message "Not authenticated"), w)
  | Some u => (json 200 (userWithoutPassword u), w)
  end.

(** The application: one request, routed by method and path. *)
Inductive Request :=
| POST_register (ctx : Context) (b : RegisterBody)
| POST_login (ctx : Context) (b : LoginBody)
| POST_logout (ctx : Context)
| GET_user (ctx : Context).

Definition context_of (r : Request) : Context :=
  match r with
  | POST_register ctx _ => ctx
  | POST_login ctx _ => ctx
  | POST_logout ctx => ctx
  | GET_user ctx => ctx
  end.

(** The route of a request, once [req.user] is known. *)
Definition route (w : World) (req_user : option User) (r : Request)
  : Response * World :=
  match r with
  | POST_register ctx b => register w ctx b
  | POST_login ctx b => login w ctx b
  | POST_logout ctx => logout w ctx
  | GET_user ctx => user w req_user
  end.

(** A request through the application: the session middleware first,
    whose error ends the request before any route, then the route, and
    the touch of the session when the response ends. *)
Definition handle (w : World) (r : Request) : Response * World :=
  match deserializeUser w (context_of r) with
  | Throw err => (next err, touch_session w (context_of r))
  | Ok req_user =>
      let '(response, w') := route w req_user r in
      (response, touch_session w' (context_of r))
  end.

End Routes.

(** ** The error kinds of the specification

    The routes answer with a status and a message; this reads a response
    as the error kind the specification gives it. *)

Inductive ErrorKind :=
| ValidationError
| ChallengeFailed
| DuplicateUsername
| InvalidCredentials
| Unauthenticated.

Definition kind_of_message (status : Z) (text : string) : option ErrorKind :=
  if Z.eqb status 400 then
    if String.eqb text
      "Missing required fields: username, password, firstName, and lastName are required"
    then Some ValidationError
    else if String.eqb text "Either email or phone number is required"
    then Some ValidationError
    else if String.eqb text "Passwords do not match" then Some ValidationError
    else if String.eqb text "CAPTCHA verification is required" then Some ChallengeFailed
    else if String.eqb text "Username already exists" then Some DuplicateUsername
    else None
  else if Z.eqb status 401 then
    if String.eqb text "Invalid username or password" then Some InvalidCredentials
    else if String.eqb text "Not authenticated" then Some Unauthenticated
    else None
  else None.

Definition error_kind (r : Response) : option ErrorKind :=
  match r with
  | json status body =>
      match body !! "message" with
      | Some (JStr text) => kind_of_message status text
      | _ => None
      end
  | _ => None
  end.

(** ** Instances and sample data used to exercise the model *)

Module Sample.

Definition bytes_of_string (s : string) : list byte :=
  map byte_of_ascii (list_ascii_of_string s).

(** A stand-in for the key derivation: the bytes of the password and of
    the salt, cut or zero-padded to [keylen]. *)
Definition toy_kdf (pass salt : string) (keylen : nat) : list byte :=
  take keylen (bytes_of_string (pass +:+ "|" +:+ salt) ++ replicate keylen x00).

Definition toy_Scrypt : Scrypt.
Proof.
  refine {| scrypt := toy_kdf |}.
  intros pass salt keylen. unfold toy_kdf.
  rewrite length_take, length_app, length_replicate. lia.
Defined.

Fixpoint has_at (s : string) : bool :=
  match s with
  | EmptyString => false
  | String c rest => Ascii.eqb c "@" || has_at rest
  end.

Definition toy_EmailFormat : EmailFormat := {| is_email := has_at |}.

Definition empty_world : World :=
  {| db := {| rows := []; serial := 1 |};
     sessions := ∅;
     issued := 0;
     rng := fun n => default x00 (Byte.of_nat (n mod 256));
     rng_pos := 0 |}.

Definition anonymous (t : Z) : Context :=
  {| sessionID := None; now := t; query_username := None; query_password := None |}.

(** A request that presents the cookie of session [sid]. *)
Definition cookie (sid : nat) (t : Z) : Context :=
  {| sessionID := Some sid; now := t;
     query_username := None; query_password := None |}.

(** A complete registration form, sent without a captcha token. *)
Definition alice_no_captcha : RegisterBody :=
  {| reg_username := Some "alice";
     reg_password := Some "Secret123!";
     reg_firstName := Some "Alice";
     reg_lastName := Some "Bee";
     reg_email := None;
     reg_phone := Some "+12345678901";
     reg_authCode := Some "";
     reg_captchaToken := None;
     reg_confirmPassword := Some "Secret123!" |}.

Definition alice : RegisterBody :=
  {| reg_username := Some "alice";
     reg_password := Some "Secret123!";
     reg_firstName := Some "Alice";
     reg_lastName := Some "Bee";
     reg_email := Some "";
     reg_phone := Some "+12345678901";
     reg_authCode := Some "";
     reg_captchaToken := Some "x7Kq2P";
     reg_confirmPassword := Some "Secret123!" |}.

Definition no_contact : RegisterBody :=
  {| reg_username := Some "bob";
     reg_password := Some "Secret123!";
     reg_firstName := Some "Bob";
     reg_lastName := Some "Cee";
     reg_email := Some "";
     reg_phone := Some "";
     reg_authCode := None;
     reg_captchaToken := Some "x7Kq2P";
     reg_confirmPassword := Some "Secret123!" |}.

(** The world after [alice] has registered at time [1000]. *)
Definition alice_world : World :=
  snd (@register toy_Scrypt toy_EmailFormat empty_world (anonymous 1000) alice).

Definition body_of (r : Response) : gmap string jsval :=
  match r with
  | json _ body => body
  | _ => ∅
  end.

(** The answer to that registration. *)
Definition alice_body : gmap string jsval :=
  body_of (fst (@register toy_Scrypt toy_EmailFormat
                  empty_world (anonymous 1000) alice)).

Definition wrong_password : LoginBody :=
  {| login_username := Some "alice";
     login_password := Some "guess";
     login_captchaToken := Some "Zz91aa" |}.


Definition good_login : LoginBody :=
  {| login_username := Some "alice";
     login_password := Some "Secret123!";
     login_captchaToken := Some "Zz91aa" |}.

End Sample.

(** The buffers a 64-byte key can be: every byte, and every list of [n]
    bytes. *)
Definition all_bytes : list byte :=
  omap (fun n => Byte.of_N (N.of_nat n)) (seq 0 256).

Fixpoint all_buffers (n : nat) : list (list byte) :=
  match n with
  | O => [[]]
  | S m => b ← all_bytes; (cons b <$> all_buffers m)
  end.

(** Pairwise distinct passwords, as many as wanted. *)
Fixpoint letters (n : nat) : string :=
  match n with
  | O => EmptyString
  | S m => String "a" (letters m)
  end.

(** The part of a stored digest before its first dot. *)
Definition hash_part (stored : string) : string :=
  default EmptyString (split_dot stored !! 0%nat).

(** ** Sequences of requests *)

Section Serving.
Context {K : Scrypt} {E : EmailFormat}.

(** The requests of a run, handled in order. *)
Fixpoint serve (w : World) (requests : list Request) : World :=
  match requests with
  | [] => w
  | r :: rest => serve (snd (handle w r)) rest
  end.

End Serving.

(** The keys of the [users] table: [id] is the primary key, drawn from a
    serial, and [username] is declared [unique]. *)
Definition directory_keys (db : Storage) : Prop :=
  NoDup (username <$> rows db)
  /\ NoDup (id <$> rows db)
  /\ Forall (fun u => id u < serial db) (rows db).

(** ** The import script ([db/import.ts]) *)

(** One element of [user-data.json]; every record names its user. *)
Record ImportUser := {
  imp_username : string;
  imp_firstName : field;
  imp_lastName : field;
  imp_email : field;
  imp_phone : field;
  imp_password : field;
  imp_authCode : field
}.

Section ImportScript.
Context {K : Scrypt}.

(** [if (user.password && !user.password.includes('.'))
      user.password = await hashPassword(user.password)]. *)
Definition import_password (rng : nat -> byte) (pos : nat) (user : ImportUser)
  : field * nat :=
  if truthy (imp_password user) && negb (has_dot (str (imp_password user)))
  then let '(hashed, pos') := hashPassword (str (imp_password user)) rng pos in
       (Some hashed, pos')
  else (imp_password user, pos).

(** The values of the insert of one record. *)
Definition import_values (user : ImportUser) (pass : field) : InsertValues :=
  {| iv_username := Some (imp_username user);
     iv_firstName := imp_firstName user;
     iv_lastName := imp_lastName user;
     iv_email := or_null (imp_email user);
     iv_phone := or_null (imp_phone user);
     iv_password := pass;
     iv_authCode := or_null (imp_authCode user) |}.

(** The body of the loop for one record: hash, skip a user that exists,
    insert otherwise; [false] when the insert throws. *)
Definition import_one (rng : nat -> byte) (now : Z)
    (db : Storage) (pos : nat) (user : ImportUser) : bool * Storage * nat :=
  let '(pass, pos') := import_password rng pos user in
  match getUserByUsername db (imp_username user) with
  | Throw error => (false, db, pos')
  | Ok (Some existingUser) => (true, db, pos')
  | Ok None => (db_insert db (import_values user pass) now, pos')
  end.

(** [importUsers]: the loop stops at the first record the table refuses
    (the error is caught and logged); [true] reports a completed run. *)
Fixpoint importUsers (rng : nat -> byte) (now : Z) (userData : list ImportUser)
    (db : Storage) (pos : nat) : Storage * nat * bool :=
  match userData with
  | [] => (db, pos, true)
  | user :: rest =>
      match import_one rng now db pos user with
      | (true, db', pos') => importUsers rng now rest db' pos'
      | (false, db', pos') => (db', pos', false)
      end
  end.

(** [seed] of the seeding script: a demo user is inserted, with a
    username and a password only, when the table is empty; the error of
    the insert is caught and logged. *)
Definition seed (rng : nat -> byte) (now : Z) (db : Storage) (pos : nat)
  : Storage * nat :=
  match rows db with
  | [] =>
      let '(hashedPassword, pos') := hashPassword "password123" rng pos in
      (snd (db_insert db
              {| iv_username := Some "demo";
                 iv_firstName := None;
                 iv_lastName := None;
                 iv_email := None;
                 iv_phone := None;
                 iv_password := Some hashedPassword;
                 iv_authCode := None |} now), pos')
  | _ :: _ => (db, pos)
  end.

End ImportScript.

(** ** The form schemas of the client ([shared/schema.ts]) *)

Fixpoint all_digits (s : string) : bool :=
  match s with
  | EmptyString => true
  | String c rest =>
      (48 <=? N_of_ascii c)%N && (N_of_ascii c <=? 57)%N && all_digits rest
  end.

(** [/^\+?[0-9]{10,15}$/]. *)
Definition phone_format (s : string) : bool :=
  let digits := match s with
                | String "+" rest => rest
                | _ => s
                end in
  all_digits digits
  && Nat.leb 10 (String.length digits) && Nat.leb (String.length digits) 15.

(** [z.string().min(n)]. *)
Definition string_min (n : nat) (v : field) : bool :=
  match v with
  | Some s => Nat.leb n (String.length s)
  | None => false
  end.

(** [check.optional().or(z.literal(""))]. *)
Definition optional_or_empty (check : string -> bool) (v : field) : bool :=
  match v with
  | Some s => check s || String.eqb s ""
  | None => true
  end.

Section Schemas.
Context {E : EmailFormat}.

(** [insertUserSchema] with its two refinements; [authCode], an optional
    string, is accepted as it comes. *)
Definition insertUserSchema (data : RegisterBody) : bool :=
  string_min 2 (reg_firstName data)
  && string_min 2 (reg_lastName data)
  && string_min 3 (reg_username data)
  && optional_or_empty is_email (reg_email data)
  && optional_or_empty phone_format (reg_phone data)
  && string_min 8 (reg_password data)
  && string_min 0 (reg_confirmPassword data)
  && string_min 1 (reg_captchaToken data)
  && (truthy (reg_email data) || truthy (reg_phone data))
  && bool_decide (reg_password data = reg_confirmPassword data).

End Schemas.

Definition loginSchema (data : LoginBody) : bool :=
  string_min 1 (login_username data)
  && string_min 1 (login_password data)
  && string_min 1 (login_captchaToken data).

(** ** The registration form of the client ([auth-page.tsx]) *)

Inductive ContactMethod := by_email | by_phone.

(** [submissionData]: only the contact that was selected is sent. *)
Definition submissionData (contactMethod : ContactMethod) (data : RegisterBody)
  : RegisterBody :=
  with_contact
    (match contactMethod with by_email => reg_email data | by_phone => Some "" end)
    (match contactMethod with by_phone => reg_phone data | by_email => Some "" end)
    data.

(** [onRegisterSubmit]: [None] when the entered captcha is not the code
    shown (the form error is set and the captcha refreshed), the body
    handed to [registerMutation.mutate] otherwise. *)
Definition onRegisterSubmit (captchaCode enteredCaptcha : string)
    (contactMethod : ContactMethod) (data : RegisterBody) : option RegisterBody :=
  if negb (String.eqb enteredCaptcha captchaCode) then None
  else Some (submissionData contactMethod data).

(** [onLoginSubmit], likewise. *)
Definition onLoginSubmit (loginCaptchaCode enteredLoginCaptcha : string)
    (data : LoginBody) : option LoginBody :=
  if negb (String.eqb enteredLoginCaptcha loginCaptchaCode) then None
  else Some data.

(** ** More sample data *)

Module Sample2.

Definition carol : ImportUser :=
  {| imp_username := "carol";
     imp_firstName := Some "Carol";
     imp_lastName := Some "Dee";
     imp_email := Some "carol@example.com";
     imp_phone := None;
     imp_password := Some "plaintext_password";
     imp_authCode := None |}.

(** A record whose plain password contains a dot. *)
Definition dave : ImportUser :=
  {| imp_username := "dave";
     imp_firstName := Some "Dave";
     imp_lastName := Some "Eff";
     imp_email := None;
     imp_phone := Some "+12345678901";
     imp_password := Some "pass.word";
     imp_authCode := None |}.

(** A record the table refuses: no first name. *)
Definition nameless : ImportUser :=
  {| imp_username := "erin";
     imp_firstName := None;
     imp_lastName := Some "Gee";
     imp_email := None;
     imp_phone := None;
     imp_password := Some "secret";
     imp_authCode := None |}.

Definition empty_db : Storage := {| rows := []; serial := 1 |}.


Definition imported (userData : list ImportUser) : Storage :=
  fst (fst (@importUsers Sample.toy_Scrypt (rng Sample.empty_world) 500
              userData empty_db 0)).

(** A registration form as the client validates it. *)
Definition frank : RegisterBody :=
  {| reg_username := Some "frank";
     reg_password := Some "Secret123!";
     reg_firstName := Some "Frank";
     reg_lastName := Some "Aitch";
     reg_email := Some "frank@example.com";
     reg_phone := Some "";
     reg_authCode := Some "";
     reg_captchaToken := Some "x7Kq2P";
     reg_confirmPassword := Some "Secret123!" |}.

(** A form the route accepts and [userDbSchema] does not: a one-letter
    first name. *)
Definition short_name : RegisterBody :=
  {| reg_username := Some "gina";
     reg_password := Some "Secret123!";
     reg_firstName := Some "G";
     reg_lastName := Some "Jay";
     reg_email := None;
     reg_phone := Some "+12345678901";
     reg_authCode := None;
     reg_captchaToken := Some "x7Kq2P";
     reg_confirmPassword := Some "Secret123!" |}.

(** A form whose phone number ends in blanks beyond the 20 characters
    of its column. *)
Definition padded_phone : RegisterBody :=
  {| reg_username := Some "ivan";
     reg_password := Some "Secret123!";
     reg_firstName := Some "Ivan";
     reg_lastName := Some "Ell";
     reg_email := Some "";
     reg_phone := Some "+1234567890123456789  ";
     reg_authCode := None;
     reg_captchaToken := Some "x7Kq2P";
     reg_confirmPassword := Some "Secret123!" |}.

Definition blanks (n : nat) : string :=
  string_of_list_ascii (repeat " "%char n).

(** A form whose username has 101 characters, the last 96 of them
    blanks. *)
Definition padded_username : RegisterBody :=
  {| reg_username := Some ("judy_" +:+ blanks 96);
     reg_password := Some "Secret123!";
     reg_firstName := Some "Judy";
     reg_lastName := Some "Emm";
     reg_email := Some "judy@example.com";
     reg_phone := None;
     reg_authCode := None;
     reg_captchaToken := Some "x7Kq2P";
     reg_confirmPassword := Some "Secret123!" |}.

(** A form whose username ends in the character U+0000. *)
Definition nul_username : RegisterBody :=
  {| reg_username := Some ("kim" +:+ String Ascii.zero EmptyString);
     reg_password := Some "Secret123!";
     reg_firstName := Some "Kim";
     reg_lastName := Some "Enn";
     reg_email := Some "kim@example.com";
     reg_phone := None;
     reg_authCode := None;
     reg_captchaToken := Some "x7Kq2P";
     reg_confirmPassword := Some "Secret123!" |}.


End Sample2.

(** The shape [<128 hex digits>.<32 hex digits>] of a digest. *)
Definition digest_shape (digest : string) : Prop :=
  exists key salt : string,
    digest = key +:+ "." +:+ salt
    /\ String.length key = 128%nat /\ Hex.all_hex key = true
    /\ String.length salt = 32%nat /\ Hex.all_hex salt = true.

(** ** Notions used in the statements *)

(** The state [req.login] leaves when the store reports no error, as the
    memory store does: the session of the cookie is gone and one is
    issued for the user. *)
Definition logged_in (w : World) (ctx : Context) (user : User) : World :=
  {| db := db w;
     sessions :=
       <[issued w := {| accountId := id user; sessionCreatedAt := now ctx;
                        expiresAt := now ctx + maxAge |}]>
         (match sessionID ctx with
          | Some old => delete old (sessions w)
          | None => sessions w
          end);
     issued := S (issued w);
     rng := rng w; rng_pos := rng_pos w |}.

(** The state [req.logout] leaves, likewise. *)
Definition logged_out (w : World) (ctx : Context) : World :=
  match sessionID ctx with
  | Some sid =>
      {| db := db w; sessions := delete sid (sessions w);
         issued := issued w; rng := rng w; rng_pos := rng_pos w |}
  | None => w
  end.

(** What one write can do to the directory: nothing to its rows, the
    serial at most drawn from once; or one row more, under a username
    that was free and with the serial as its id. *)
Definition one_write (db db' : Storage) : Prop :=
  (rows db' = rows db /\ (serial db' = serial db \/ serial db' = serial db + 1))
  \/ exists u : User,
       db' = {| rows := (rows db ++ [u])%list; serial := serial db + 1 |}
       /\ findFirst_username db (username u) = None
       /\ id u = serial db.

(** A session identifier that was issued and whose session is gone. *)
Definition session_gone (sid : nat) (w : World) : Prop :=
  (sid < issued w)%nat /\ sessions w !! sid = None.

(** Whether the table takes the values of an insert. *)
Definition insert_succeeds (db : Storage) (v : InsertValues) : bool :=
  negb (values_have_nul v)
  && match stored_values v with
     | Some row => insert_accepts db row
     | None => false
     end.

(** Every session of the store names an account of the table. *)
Definition sessions_sound (w : World) : Prop :=
  forall (sid : nat) (s : Session),
    sessions w !! sid = Some s ->
    exists u : User, getUserById (db w) (accountId s) = Ok u.

(** The account a successful answer is about: the one the registration
    has just stored under the username of the form, which was free; the
    one the directory holds under the username of the login, against
    whose digest the password verified; the one the live session of the
    cookie names. *)
Definition account_of {K : Scrypt} (w w' : World) (r : Request) (u : User) : Prop :=
  match r with
  | POST_register ctx b =>
      getUserByUsername (db w) (str (reg_username b)) = Ok None
      /\ getUserByUsername (db w') (str (reg_username b)) = Ok (Some u)
  | POST_login ctx b =>
      getUserByUsername (db w) (str (given_username ctx b)) = Ok (Some u)
      /\ comparePasswords (str (given_password ctx b)) (password u) = Ok true
  | POST_logout ctx => False
  | GET_user ctx =>
      exists (sid : nat) (s : Session),
        sessionID ctx = Some sid
        /\ SessionStore.get (sessions w) sid (now ctx) = Some s
        /\ getUserById (db w) (accountId s) = Ok u
  end.

(** A server state in which a session outlives its account: the session
    names account 7, which the table does not hold. *)
Definition orphan_world : World :=
  {| db := {| rows := []; serial := 1 |};
     sessions := {[ 0%nat := {| accountId := 7; sessionCreatedAt := 1000;
                                expiresAt := 1000 + maxAge |} ]};
     issued := 1;
     rng := rng Sample.empty_world;
     rng_pos := 0 |}.

(** * Properties *)

(** ** Hexadecimal encoding and splitting *)

Lemma append_String (c : ascii) (s t : string) :
  String c s +:+ t = String c (s +:+ t).
Proof. reflexivity. Qed.

Lemma append_empty (t : string) : EmptyString +:+ t = t.
Proof. reflexivity. Qed.

Section HexFacts.
Import Hex.

Lemma decode_byte (b : byte) (rest : string) :
  Buffer_from_hex (hex_of_byte b +:+ rest) = b :: Buffer_from_hex rest.
Proof. destruct b; reflexivity. Qed.

Lemma Buffer_from_toString (buf : list byte) :
  Buffer_from_hex (toString_hex buf) = buf.
Proof.
  induction buf as [|b buf IH]; [reflexivity|].
  cbn [toString_hex]. rewrite decode_byte. by f_equal.
Qed.

Lemma has_dot_byte (b : byte) (rest : string) :
  has_dot (hex_of_byte b +:+ rest) = has_dot rest.
Proof. destruct b; reflexivity. Qed.

Lemma has_dot_toString (buf : list byte) : has_dot (toString_hex buf) = false.
Proof.
  induction buf as [|b buf IH]; [reflexivity|].
  cbn [toString_hex]. by rewrite has_dot_byte.
Qed.

Lemma all_hex_byte (b : byte) (rest : string) :
  all_hex (hex_of_byte b +:+ rest) = all_hex rest.
Proof. destruct b; reflexivity. Qed.

Lemma all_hex_toString (buf : list byte) : all_hex (toString_hex buf) = true.
Proof.
  induction buf as [|b buf IH]; [reflexivity|].
  cbn [toString_hex]. by rewrite all_hex_byte.
Qed.

Lemma length_toString (buf : list byte) :
  String.length (toString_hex buf) = (2 * length buf)%nat.
Proof.
  induction buf as [|b buf IH]; [reflexivity|].
  change (toString_hex (b :: buf)) with (hex_of_byte b +:+ toString_hex buf).
  unfold hex_of_byte. rewrite !append_String, append_empty.
  cbn [String.length length]. lia.
Qed.

End HexFacts.

Lemma split_dot_no_dot (s : string) : has_dot s = false -> split_dot s = [s].
Proof.
  induction s as [|c s IH]; [reflexivity|].
  cbn [has_dot split_dot]. destruct (Ascii.eqb c "."); [discriminate|].
  cbn [orb]. intros H. by rewrite (IH H).
Qed.

Lemma split_dot_app (s1 s2 : string) :
  has_dot s1 = false -> split_dot (s1 +:+ "." +:+ s2) = s1 :: split_dot s2.
Proof.
  induction s1 as [|c s1 IH]; [reflexivity|].
  rewrite append_String. cbn [has_dot split_dot].
  destruct (Ascii.eqb c "."); [discriminate|].
  cbn [orb]. intros H. by rewrite (IH H).
Qed.

Lemma split_dot_has_dot (s : string) :
  has_dot s = true -> exists h t rest, split_dot s = h :: t :: rest.
Proof.
  induction s as [|c s IH]; [discriminate|].
  cbn [has_dot split_dot]. destruct (Ascii.eqb c ".").
  - intros _. destruct (split_dot s) as [|t rest] eqn:Hs.
    + by destruct s; cbn in Hs; repeat case_match.
    + by exists EmptyString, t, rest.
  - cbn [orb]. intros H. destruct (IH H) as (h & t & rest & ->).
    by exists (String c h), t, rest.
Qed.

Lemma randomBytes_length (n : nat) (rng : nat -> byte) (pos : nat) :
  length (fst (randomBytes n rng pos)) = n.
Proof. unfold randomBytes. cbn [fst]. by rewrite length_map, length_seq. Qed.

(** ** The credential hasher *)

Section HasherFacts.
Context {K : Scrypt}.

Lemma timingSafeEqual_same_length (a b : list byte) :
  length a = length b -> timingSafeEqual a b = Ok (bool_decide (a = b)).
Proof. intros H. unfold timingSafeEqual. by rewrite H, Nat.eqb_refl. Qed.

(** Verification against a digest made by [digest_of] compares the two
    derived keys. *)
Lemma comparePasswords_digest_of (supplied pass : string) (saltBytes : list byte) :
  comparePasswords supplied (digest_of pass saltBytes)
  = Ok (bool_decide (scrypt pass (Hex.toString_hex saltBytes) 64
                     = scrypt supplied (Hex.toString_hex saltBytes) 64)).
Proof.
  unfold comparePasswords, digest_of.
  rewrite split_dot_app by apply has_dot_toString.
  rewrite (split_dot_no_dot (Hex.toString_hex saltBytes)) by apply has_dot_toString.
  cbn [lookup list_lookup default from_option Datatypes.id bind].
  rewrite Buffer_from_toString.
  apply timingSafeEqual_same_length. by rewrite !scrypt_length.
Qed.

Lemma hashPassword_digest (pass : string) (rng : nat -> byte) (pos : nat) :
  fst (hashPassword pass rng pos) = digest_of pass (fst (randomBytes 16 rng pos)).
Proof. reflexivity. Qed.

Lemma comparePasswords_no_dot (supplied stored : string) :
  has_dot stored = false ->
  comparePasswords supplied stored = Throw ERR_INVALID_ARG_TYPE.
Proof.
  intros H. unfold comparePasswords. by rewrite (split_dot_no_dot _ H).
Qed.

Lemma comparePasswords_dot (supplied stored : string) :
  has_dot stored = true ->
  exists salt,
    split_dot stored !! 1%nat = Some salt /\
    comparePasswords supplied stored
    = timingSafeEqual (Hex.Buffer_from_hex (hash_part stored)) (scrypt supplied salt 64).
Proof.
  intros H. destruct (split_dot_has_dot _ H) as (h & t & rest & Hs).
  exists t. unfold comparePasswords, hash_part. by rewrite Hs.
Qed.

End HasherFacts.

(** ** Collisions of the key derivation

    A deterministic derivation with an [n]-byte result maps the unboundedly
    many passwords into finitely many buffers, so two of them share a key. *)

Lemma elem_of_all_bytes (b : byte) : b ∈ all_bytes.
Proof.
  unfold all_bytes. apply list_elem_of_omap.
  exists (N.to_nat (Byte.to_N b)). split.
  - apply elem_of_seq. pose proof (Byte.to_N_bounded b). lia.
  - by rewrite N2Nat.id, Byte.of_to_N.
Qed.

Lemma elem_of_all_buffers (buf : list byte) : buf ∈ all_buffers (length buf).
Proof.
  induction buf as [|b buf IH]; cbn [all_buffers length].
  - apply list_elem_of_singleton. reflexivity.
  - apply list_elem_of_bind. exists b. split; [|apply elem_of_all_bytes].
    apply list_elem_of_fmap. by exists buf.
Qed.

Lemma length_letters (n : nat) : String.length (letters n) = n.
Proof. induction n as [|n IH]; cbn [letters String.length]; congruence. Qed.

Lemma letters_inj (n m : nat) : letters n = letters m -> n = m.
Proof. intros H. by rewrite <-(length_letters n), <-(length_letters m), H. Qed.

Lemma kdf_collision {K : Scrypt} (salt : string) (n : nat) :
  exists i j : nat,
    (i < j)%nat /\ scrypt (letters i) salt n = scrypt (letters j) salt n.
Proof.
  set (f := fun i : nat => scrypt (letters i) salt n).
  set (bound := length (all_buffers n)).
  destruct (list_pigeonhole (f <$> seq 0 (S bound)) (all_buffers n))
    as (i & j & x & Hij & Hi & Hj).
  - intros buf [k [-> _]]%list_elem_of_fmap. unfold f.
    rewrite <-(scrypt_length (letters k) salt n) at 2.
    apply elem_of_all_buffers.
  - rewrite length_fmap, length_seq. unfold bound. apply Nat.lt_succ_diag_r.
  - rewrite list_lookup_fmap in Hi, Hj.
    destruct (seq 0 (S bound) !! i) as [i'|] eqn:Ei; [|discriminate].
    destruct (seq 0 (S bound) !! j) as [j'|] eqn:Ej; [|discriminate].
    apply lookup_seq in Ei as [-> _]. apply lookup_seq in Ej as [-> _].
    cbn in Hi, Hj. exists i, j. split; [done|]. unfold f in Hi, Hj. congruence.
Qed.

Lemma hashPassword_shape {K : Scrypt} (pass : string) (rng : nat -> byte) (pos : nat) :
  digest_shape (fst (hashPassword pass rng pos)).
Proof.
  rewrite hashPassword_digest. unfold digest_shape, digest_of.
  eexists _, _. split; [reflexivity|].
  rewrite !length_toString, !all_hex_toString, scrypt_length, randomBytes_length.
  done.
Qed.

(** C2, as stated, fails: whatever the key derivation is, two distinct
    passwords exist of which one verifies against the digest of the
    other. *)
Lemma verify_distinct_counterexample :
  ~ exists K : Scrypt,
      forall (P Q : string) (rng : nat -> byte) (pos : nat),
        P <> Q -> @comparePasswords K Q (fst (@hashPassword K P rng pos)) = Ok false.
Proof.
  intros [K H].
  set (rng := fun _ : nat => x00).
  destruct (kdf_collision (Hex.toString_hex (fst (randomBytes 16 rng 0))) 64)
    as (i & j & Hij & Heq).
  specialize (H (letters i) (letters j) rng 0%nat).
  rewrite hashPassword_digest, comparePasswords_digest_of in H.
  rewrite bool_decide_eq_true_2 in H by exact Heq.
  assert (letters i <> letters j) as Hne by (intros ->%letters_inj; lia).
  specialize (H Hne). discriminate H.
Qed.

(** C2 (amended): [verify(P, hash(P))] is true for every password [P];
    for a second password [Q], [verify(Q, hash(P))] is false exactly when
    the key derived from [Q] under the salt of the digest differs from the
    key derived from [P], and true exactly when the two keys coincide. *)
Theorem verify_hash (K : Scrypt) (P Q : string) (rng : nat -> byte) (pos : nat) :
  let digest := fst (hashPassword P rng pos) in
  let salt := Hex.toString_hex (fst (randomBytes 16 rng pos)) in
  comparePasswords P digest = Ok true
  /\ (comparePasswords Q digest = Ok false
      <-> scrypt Q salt 64 <> scrypt P salt 64)
  /\ (comparePasswords Q digest = Ok true
      <-> scrypt Q salt 64 = scrypt P salt 64).
Proof.
  intros digest salt. unfold digest.
  rewrite hashPassword_digest, !comparePasswords_digest_of. fold salt.
  split; [by rewrite bool_decide_eq_true_2|].
  destruct (decide (scrypt P salt 64 = scrypt Q salt 64)) as [Heq|Hne].
  - rewrite bool_decide_eq_true_2 by done. split; split; congruence.
  - rewrite bool_decide_eq_false_2 by done. split; split; congruence.
Qed.

(** C3, as stated, fails: a stored digest without a separator, and one
    whose hash is too short, make verification raise. *)
Lemma malformed_digest_counterexample :
  (~ exists K : Scrypt, @comparePasswords K "Secret123!" "deadbeef" = Ok false)
  /\ (~ exists K : Scrypt, @comparePasswords K "Secret123!" "deadbeef.00ff" = Ok false).
Proof.
  split; intros [K H].
  - discriminate H.
  - unfold comparePasswords in H. cbn in H. unfold timingSafeEqual in H.
    rewrite scrypt_length in H. discriminate H.
Qed.

(** C3 (amended): for every plaintext and every stored digest that has no
    ['.'] separator, or whose part before the first ['.'] does not decode
    to exactly 64 bytes, verification raises an error instead of returning
    false: the type error of [scrypt] for the missing salt, the range error
    of [timingSafeEqual] for the length mismatch. *)
Theorem malformed_digest_raises (K : Scrypt) (plaintext stored : string) :
  has_dot stored = false
  \/ length (Hex.Buffer_from_hex (hash_part stored)) <> 64%nat ->
  comparePasswords plaintext stored
  = Throw (if has_dot stored
           then ERR_CRYPTO_TIMING_SAFE_EQUAL_LENGTH
           else ERR_INVALID_ARG_TYPE).
Proof.
  intros H. destruct (has_dot stored) eqn:Hdot.
  - destruct H as [H|H]; [discriminate|].
    destruct (comparePasswords_dot plaintext stored Hdot) as (salt & _ & ->).
    unfold timingSafeEqual. rewrite scrypt_length.
    by apply Nat.eqb_neq in H as ->.
  - by apply comparePasswords_no_dot.
Qed.

Lemma malformed_digest_raises_witness :
  (has_dot "deadbeef.00ff" = false
   \/ length (Hex.Buffer_from_hex (hash_part "deadbeef.00ff")) <> 64%nat)
  /\ @comparePasswords Sample.toy_Scrypt "Secret123!" "deadbeef.00ff"
     = Throw ERR_CRYPTO_TIMING_SAFE_EQUAL_LENGTH.
Proof.
  split.
  - right. vm_compute. lia.
  - apply (malformed_digest_raises Sample.toy_Scrypt "Secret123!" "deadbeef.00ff").
    right. vm_compute. lia.
Defined.


(** C10: [hash] accepts the empty plaintext: its digest has the shape
    [<128 hex digits>.<32 hex digits>] that the digest of any plaintext
    has, and the empty plaintext verifies against it. *)
Theorem hash_empty_plaintext (K : Scrypt) (rng : nat -> byte) (pos : nat) :
  (forall pass : string, digest_shape (fst (hashPassword pass rng pos)))
  /\ digest_shape (fst (hashPassword "" rng pos))
  /\ comparePasswords "" (fst (hashPassword "" rng pos)) = Ok true.
Proof.
  split; [|split].
  - intros pass. apply hashPassword_shape.
  - apply hashPassword_shape.
  - rewrite hashPassword_digest, comparePasswords_digest_of.
    by rewrite bool_decide_eq_true_2.
Qed.

(** ** The user directory *)

Lemma find_app {A} (f : A -> bool) (l1 l2 : list A) :
  List.find f (l1 ++ l2)
  = match List.find f l1 with
    | Some x => Some x
    | None => List.find f l2
    end.
Proof.
  induction l1 as [|a l1 IH]; [reflexivity|].
  cbn [app List.find]. by destruct (f a).
Qed.

Lemma find_none_filter {A} (f : A -> bool) (l : list A) :
  List.find f l = None -> List.filter f l = [].
Proof.
  induction l as [|a l IH]; [reflexivity|].
  cbn [List.find List.filter]. destruct (f a); [discriminate|exact IH].
Qed.

Lemma findFirst_username_elem (db : Storage) (name : string) (u : User) :
  findFirst_username db name = Some u -> u ∈ rows db /\ username u = name.
Proof.
  intros [Hin Hf]%find_some. split.
  - by apply list_elem_of_In.
  - by apply String.eqb_eq.
Qed.

Lemma getUserByUsername_Ok (db : Storage) (name : string) (r : option User) :
  getUserByUsername db name = Ok r
  <-> has_nul name = false /\ findFirst_username db name = r.
Proof.
  unfold getUserByUsername. destruct (has_nul name).
  - split; [discriminate|]. by intros [? _].
  - split; [by intros [= <-]|]. by intros [_ <-].
Qed.

Lemma getUserByUsername_elem (db : Storage) (name : string) (u : User) :
  getUserByUsername db name = Ok (Some u) -> u ∈ rows db /\ username u = name.
Proof. intros [_ H]%getUserByUsername_Ok. by apply findFirst_username_elem. Qed.

Lemma getUserByUsername_clean (db : Storage) (name : string) :
  has_nul name = false ->
  getUserByUsername db name = Ok (findFirst_username db name).
Proof. intros H. by apply getUserByUsername_Ok. Qed.

Lemma getUserById_elem (db : Storage) (i : Z) (u : User) :
  getUserById db i = Ok u -> u ∈ rows db /\ id u = i.
Proof.
  unfold getUserById.
  destruct (List.find _ _) as [found|] eqn:Hf; [|discriminate].
  intros [= ->]. apply find_some in Hf as [Hin Hf]. split.
  - by apply list_elem_of_In.
  - by apply Z.eqb_eq.
Qed.

(** *** Columns *)

Lemma length_take_chars (n : nat) (s : string) :
  String.length (take_chars n s) = Nat.min n (String.length s).
Proof.
  revert s. induction n as [|n IH]; intros [|c s]; cbn [take_chars String.length];
    try reflexivity.
  rewrite IH. reflexivity.
Qed.

Lemma varchar_fits (n : nat) (s : string) :
  (String.length s <= n)%nat -> varchar n s = Some s.
Proof. intros H%Nat.leb_le. unfold varchar. by rewrite H. Qed.

(** What a column holds has at most its length, and is the value given
    exactly when that fits. *)
Lemma varchar_Some (n : nat) (s t : string) :
  varchar n s = Some t ->
  (String.length t <= n)%nat /\ (t = s <-> (String.length s <= n)%nat).
Proof.
  unfold varchar. destruct (Nat.leb_spec (String.length s) n) as [Hle|Hgt].
  - intros [= <-]. done.
  - destruct (all_blank (drop_chars n s)); [|discriminate]. intros [= <-].
    pose proof (length_take_chars n s) as Hlen. split; [lia|].
    split; [|lia]. intros Heq. rewrite Heq in Hlen. lia.
Qed.

Lemma varchar_column_fits (n : nat) (v : option string) :
  opt_max_length n v = true -> varchar_column n v = Some v.
Proof.
  destruct v as [s|]; [|done]. cbn [opt_max_length varchar_column].
  intros H%Nat.leb_le. by rewrite varchar_fits.
Qed.

Lemma varchar_column_None (n : nat) (v w : option string) :
  varchar_column n v = Some w -> (v = None <-> w = None).
Proof.
  destruct v as [s|]; cbn [varchar_column].
  - destruct (varchar n s); cbn; [|discriminate]. intros [= <-]. done.
  - by intros [= <-].
Qed.

Lemma stored_values_Some (v row : InsertValues) :
  stored_values v = Some row ->
  varchar_column 100 (iv_username v) = Some (iv_username row)
  /\ varchar_column 100 (iv_firstName v) = Some (iv_firstName row)
  /\ varchar_column 100 (iv_lastName v) = Some (iv_lastName row)
  /\ varchar_column 255 (iv_email v) = Some (iv_email row)
  /\ varchar_column 20 (iv_phone v) = Some (iv_phone row)
  /\ varchar_column 255 (iv_password v) = Some (iv_password row)
  /\ varchar_column 100 (iv_authCode v) = Some (iv_authCode row).
Proof.
  unfold stored_values.
  destruct (varchar_column 100 (iv_username v)); [|discriminate].
  destruct (varchar_column 100 (iv_firstName v)); [|discriminate].
  destruct (varchar_column 100 (iv_lastName v)); [|discriminate].
  destruct (varchar_column 255 (iv_email v)); [|discriminate].
  destruct (varchar_column 20 (iv_phone v)); [|discriminate].
  destruct (varchar_column 255 (iv_password v)); [|discriminate].
  destruct (varchar_column 100 (iv_authCode v)); [|discriminate].
  cbn. by intros [= <-].
Qed.

Lemma stored_values_fits (v : InsertValues) :
  opt_max_length 100 (iv_username v) = true ->
  opt_max_length 100 (iv_firstName v) = true ->
  opt_max_length 100 (iv_lastName v) = true ->
  opt_max_length 255 (iv_email v) = true ->
  opt_max_length 20 (iv_phone v) = true ->
  opt_max_length 255 (iv_password v) = true ->
  opt_max_length 100 (iv_authCode v) = true ->
  stored_values v = Some v.
Proof.
  intros. unfold stored_values. rewrite !varchar_column_fits by done.
  by destruct v.
Qed.

Lemma values_have_nul_username (v : InsertValues) :
  values_have_nul v = false -> opt_has_nul (iv_username v) = false.
Proof.
  unfold values_have_nul. intros H.
  repeat (apply orb_false_elim in H as [H _]). exact H.
Qed.

Lemma insert_accepts_free (db : Storage) (v : InsertValues) :
  insert_accepts db v = true ->
  findFirst_username db (str (iv_username v)) = None.
Proof.
  unfold insert_accepts. intros [_ H]%andb_prop.
  apply negb_true_iff, bool_decide_eq_false in H.
  destruct (findFirst_username db (str (iv_username v))); [|done].
  destruct H. by eexists.
Qed.

(** An insert that succeeds appends the row as the columns take it. *)
Lemma db_insert_true (db : Storage) (v : InsertValues) (now : Z) (db' : Storage) :
  db_insert db v now = (true, db') ->
  exists row : InsertValues,
    values_have_nul v = false
    /\ stored_values v = Some row
    /\ insert_accepts db row = true
    /\ db' = {| rows := (rows db ++ [inserted_row db row now])%list;
                serial := serial db + 1 |}.
Proof.
  unfold db_insert. destruct (values_have_nul v); [discriminate|].
  destruct (stored_values v) as [row|]; [|discriminate].
  destruct (insert_accepts db row) eqn:Ha; [|discriminate].
  intros [= <-]. by exists row.
Qed.

(** An insert that is refused leaves the rows; it may have drawn from the
    serial. *)
Lemma db_insert_false (db : Storage) (v : InsertValues) (now : Z) (db' : Storage) :
  db_insert db v now = (false, db') ->
  rows db' = rows db /\ (serial db' = serial db \/ serial db' = serial db + 1).
Proof.
  unfold db_insert. destruct (values_have_nul v); [intros [= <-]; auto|].
  destruct (stored_values v) as [row|]; [|intros [= <-]; auto].
  destruct (insert_accepts db row); [discriminate|]. intros [= <-]. auto.
Qed.

Section DirectoryFacts.
Context {E : EmailFormat}.

(** What [createUser] has done when it returns an account for a username
    that was free: the row is stored under that very username, as the
    columns take its other values. *)
Lemma createUser_Ok (db : Storage) (user : DbUser) (now : Z) (u : User) (db' : Storage) :
  findFirst_username db (db_username user) = None ->
  createUser db user now = (Ok u, db') ->
  exists row : InsertValues,
    userDbSchema user = true
    /\ stored_values (values_of user) = Some row
    /\ u = inserted_row db row now
    /\ username u = db_username user
    /\ db' = {| rows := (rows db ++ [u])%list; serial := serial db + 1 |}.
Proof.
  intros Hfree. unfold createUser.
  destruct (userDbSchema user); [|discriminate]. cbn [negb].
  destruct (db_insert db (values_of user) now) as [[|] db1] eqn:Hi; [|discriminate].
  apply db_insert_true in Hi as (row & Hnul%values_have_nul_username & Hrow & _ & ->).
  rewrite getUserByUsername_clean by exact Hnul.
  unfold findFirst_username in *. cbn [rows]. rewrite find_app, Hfree.
  cbn [List.find].
  destruct (String.eqb_spec (username (inserted_row db row now)) (db_username user))
    as [Hname|_]; [|discriminate].
  intros [= <- <-]. by exists row.
Qed.

(** Whatever [createUser] answers, the old rows stay, at most one row is
    added, under a username that was free and with the serial as its id,
    and the serial does not go back. *)
Lemma createUser_writes (db : Storage) (user : DbUser) (now : Z) :
  let db' := snd (createUser db user now) in
  (rows db' = rows db /\ (serial db' = serial db \/ serial db' = serial db + 1))
  \/ exists u : User,
       db' = {| rows := (rows db ++ [u])%list; serial := serial db + 1 |}
       /\ findFirst_username db (username u) = None
       /\ id u = serial db.
Proof.
  cbn zeta. unfold createUser.
  destruct (userDbSchema user); cbn [negb snd]; [|auto].
  destruct (db_insert db (values_of user) now) as [[|] db1] eqn:Hi.
  - apply db_insert_true in Hi as (row & _ & _ & Hacc%insert_accepts_free & ->).
    right. exists (inserted_row db row now).
    destruct (getUserByUsername _ (db_username _)) as [[found|]|e]; cbn [snd];
      repeat split; exact Hacc.
  - apply db_insert_false in Hi. by left.
Qed.

Lemma values_of_fits (user : DbUser) :
  max_length 100 (db_username user) = true ->
  max_length 100 (db_firstName user) = true ->
  max_length 100 (db_lastName user) = true ->
  opt_max_length 255 (db_email user) = true ->
  opt_max_length 20 (db_phone user) = true ->
  max_length 255 (db_password user) = true ->
  opt_max_length 100 (db_authCode user) = true ->
  stored_values (values_of user) = Some (values_of user).
Proof. intros. by apply stored_values_fits. Qed.

Lemma createUser_succeeds (db : Storage) (user : DbUser) (now : Z) :
  userDbSchema user = true ->
  values_have_nul (values_of user) = false ->
  stored_values (values_of user) = Some (values_of user) ->
  findFirst_username db (db_username user) = None ->
  createUser db user now
  = (Ok (new_user db user now),
     {| rows := (rows db ++ [new_user db user now])%list;
        serial := serial db + 1 |}).
Proof.
  intros Hs Hnul Hst Hfree. unfold createUser, db_insert.
  rewrite Hs, Hnul, Hst. cbn [negb].
  assert (insert_accepts db (values_of user) = true) as ->.
  { unfold insert_accepts.
    cbn [values_of iv_firstName iv_lastName iv_username iv_password not_null
         andb str default from_option Datatypes.id].
    by rewrite Hfree. }
  rewrite getUserByUsername_clean
    by exact (values_have_nul_username _ Hnul).
  unfold findFirst_username in *. cbn [rows]. rewrite find_app, Hfree.
  cbn [List.find inserted_row username values_of iv_username str default
       from_option Datatypes.id].
  by rewrite String.eqb_refl.
Qed.

End DirectoryFacts.

(** ** The routes *)

Lemma truthy_str (v : field) : truthy v = true -> v = Some (str v) /\ str v <> "".
Proof.
  destruct v as [s|]; [|discriminate]. cbn [truthy str default from_option Datatypes.id].
  intros H%negb_true_iff. split; [done|]. by apply String.eqb_neq.
Qed.

Lemma register_validation_None (b : RegisterBody) :
  register_validation b = None
  <-> truthy (reg_username b) = true /\ truthy (reg_password b) = true
      /\ truthy (reg_firstName b) = true /\ truthy (reg_lastName b) = true
      /\ (truthy (reg_email b) = true \/ truthy (reg_phone b) = true)
      /\ reg_password b = reg_confirmPassword b.
Proof.
  unfold register_validation.
  destruct (truthy (reg_username b)), (truthy (reg_password b)),
    (truthy (reg_firstName b)), (truthy (reg_lastName b));
    cbn [negb orb]; try (split; [discriminate|intros (?&?&?&?&_); discriminate]).
  destruct (truthy (reg_email b)), (truthy (reg_phone b)); cbn [negb andb];
    try (case_bool_decide; cbn [negb]; split; intros; try discriminate;
         intuition congruence).
  split; [discriminate|]. intros (_&_&_&_&[?|?]&_); discriminate.
Qed.

(** The memory store reports no error: logging in and out succeed. *)
Lemma req_login_Ok (w : World) (ctx : Context) (u : User) :
  req_login w ctx u = Ok (logged_in w ctx u).
Proof.
  unfold req_login, logged_in, SessionStore.destroy, SessionStore.create.
  by destruct (sessionID ctx).
Qed.

Lemma logout_Ok (w : World) (ctx : Context) :
  logout w ctx = (sendStatus 200, logged_out w ctx).
Proof.
  unfold logout, req_logout, logged_out, SessionStore.destroy.
  by destruct (sessionID ctx).
Qed.

Lemma req_logout_Ok (w : World) (ctx : Context) :
  req_logout w ctx = Ok (logged_out w ctx).
Proof.
  unfold req_logout, logged_out, SessionStore.destroy.
  by destruct (sessionID ctx).
Qed.

Section RouteFacts.
Context {K : Scrypt} {E : EmailFormat}.

Lemma register_validation_rejects (b : RegisterBody) (r : Response) :
  register_validation b = Some r ->
  (exists text, r = json 400 (message text))
  /\ error_kind r = Some ValidationError.
Proof.
  unfold register_validation. intros H.
  repeat case_match; simplify_eq; (split; [by eexists|reflexivity]).
Qed.

(** What a registration answered with a status other than 400 has done:
    it passed the checks, found the username free, and stored, under the
    username of the form, the row built from the form and the fresh
    digest as the columns take it. *)
Lemma register_created (w : World) (ctx : Context) (b : RegisterBody)
    (status : Z) (body : gmap string jsval) (w' : World) :
  register w ctx b = (json status body, w') ->
  status <> 400 ->
  let digest := fst (hashPassword (str (reg_password b)) (rng w) (rng_pos w)) in
  exists (row : InsertValues) (u : User),
    register_validation b = None
    /\ getUserByUsername (db w) (str (reg_username b)) = Ok None
    /\ status = 201
    /\ body = userWithoutPassword u
    /\ userDbSchema (userData b digest) = true
    /\ stored_values (values_of (userData b digest)) = Some row
    /\ u = inserted_row (db w) row (now ctx)
    /\ username u = str (reg_username b)
    /\ w' = logged_in
              (registered_world w
                 {| rows := (rows (db w) ++ [u])%list;
                    serial := serial (db w) + 1 |}) ctx u.
Proof.
  unfold register. intros H Hst.
  destruct (register_validation b) as [r|] eqn:Hv.
  { apply register_validation_rejects in Hv as [[text ->] _]. by simplify_eq. }
  destruct (getUserByUsername (db w) (str (reg_username b))) as [[found|]|e]
    eqn:Hfree; [by simplify_eq| |discriminate].
  destruct (hashPassword _ _ _) as [digest pos'] eqn:Hh.
  assert (pos' = (rng_pos w + 16)%nat) as -> by (by injection Hh).
  cbn [fst].
  destruct (createUser _ _ _) as [[u|e] db'] eqn:Hc; [|discriminate].
  apply createUser_Ok in Hc as (row & Hs & Hrow & -> & Hname & ->);
    [|by apply getUserByUsername_Ok in Hfree as [_ ?]].
  rewrite req_login_Ok in H.
  injection H as <- <- <-. exists row, (inserted_row (db w) row (now ctx)).
  repeat split; try done.
Qed.

End RouteFacts.

(** C5: a registration request in which [firstName], [lastName],
    [username] or [password] is missing (absent or empty), or in which
    neither [email] nor [phone] is non-empty, or whose [password] differs
    from [confirmPassword], is rejected with a [ValidationError], and the
    server state is left as it was: no account is created. *)
Theorem register_rejects_invalid (K : Scrypt) (E : EmailFormat)
    (w : World) (ctx : Context) (b : RegisterBody) :
  truthy (reg_firstName b) = false
  \/ truthy (reg_lastName b) = false
  \/ truthy (reg_username b) = false
  \/ truthy (reg_password b) = false
  \/ (truthy (reg_email b) = false /\ truthy (reg_phone b) = false)
  \/ reg_password b <> reg_confirmPassword b ->
  exists r : Response,
    register w ctx b = (r, w)
    /\ error_kind r = Some ValidationError
    /\ rows (db (snd (register w ctx b))) = rows (db w).
Proof.
  intros H.
  assert (exists r, register_validation b = Some r) as [r Hr].
  { unfold register_validation.
    destruct (truthy (reg_username b)), (truthy (reg_password b)),
      (truthy (reg_firstName b)), (truthy (reg_lastName b));
      cbn [negb orb andb]; eauto.
    destruct (truthy (reg_email b)), (truthy (reg_phone b));
      cbn [negb orb andb]; eauto;
      (case_bool_decide; cbn [negb]; [exfalso|eauto]);
      destruct H as [H|[H|[H|[H|[[H1 H2]|H]]]]]; congruence. }
  exists r. unfold register. rewrite Hr. cbn [snd].
  by apply register_validation_rejects in Hr as [_ ->].
Qed.

Lemma register_rejects_invalid_witness :
  (truthy (reg_firstName Sample.no_contact) = false
   \/ truthy (reg_lastName Sample.no_contact) = false
   \/ truthy (reg_username Sample.no_contact) = false
   \/ truthy (reg_password Sample.no_contact) = false
   \/ (truthy (reg_email Sample.no_contact) = false
       /\ truthy (reg_phone Sample.no_contact) = false)
   \/ reg_password Sample.no_contact <> reg_confirmPassword Sample.no_contact)
  /\ exists r : Response,
       @register Sample.toy_Scrypt Sample.toy_EmailFormat
         Sample.empty_world (Sample.anonymous 1000) Sample.no_contact
       = (r, Sample.empty_world)
       /\ error_kind r = Some ValidationError
       /\ rows (db (snd (@register Sample.toy_Scrypt Sample.toy_EmailFormat
            Sample.empty_world (Sample.anonymous 1000) Sample.no_contact)))
          = rows (db Sample.empty_world).
Proof.
  split.
  - right; right; right; right; left. split; reflexivity.
  - apply (register_rejects_invalid Sample.toy_Scrypt Sample.toy_EmailFormat
             Sample.empty_world (Sample.anonymous 1000) Sample.no_contact).
    right; right; right; right; left. split; reflexivity.
Defined.

Lemma length_append (s t : string) :
  String.length (s +:+ t) = (String.length s + String.length t)%nat.
Proof.
  induction s as [|c s IH]; [reflexivity|].
  rewrite append_String. cbn [String.length]. by rewrite IH.
Qed.

Lemma length_hashPassword {K : Scrypt} (pass : string) (rng : nat -> byte) (pos : nat) :
  String.length (fst (hashPassword pass rng pos)) = 161%nat.
Proof.
  rewrite hashPassword_digest. unfold digest_of.
  rewrite !length_append, !length_toString, scrypt_length, randomBytes_length.
  reflexivity.
Qed.

Lemma has_nul_append (s t : string) :
  has_nul (s +:+ t) = has_nul s || has_nul t.
Proof.
  induction s as [|c s IH]; [reflexivity|].
  rewrite append_String. cbn [has_nul]. by rewrite IH, orb_assoc.
Qed.

Lemma has_nul_toString (buf : list byte) : has_nul (Hex.toString_hex buf) = false.
Proof.
  induction buf as [|b buf IH]; [reflexivity|].
  cbn [Hex.toString_hex]. rewrite has_nul_append, IH. by destruct b.
Qed.

(** A digest has no U+0000 and fits the [password] column. *)
Lemma has_nul_hashPassword {K : Scrypt} (pass : string) (rng : nat -> byte) (pos : nat) :
  has_nul (fst (hashPassword pass rng pos)) = false.
Proof.
  rewrite hashPassword_digest. unfold digest_of.
  by rewrite !has_nul_append, !has_nul_toString.
Qed.

Lemma varchar_hashPassword {K : Scrypt} (pass : string) (rng : nat -> byte) (pos : nat) :
  varchar 255 (fst (hashPassword pass rng pos)) = Some (fst (hashPassword pass rng pos)).
Proof. apply varchar_fits. rewrite length_hashPassword. lia. Qed.

Section RegisterFacts.
Context {K : Scrypt} {E : EmailFormat}.

(** The route never reads [captchaToken]. *)
Lemma register_never_reads_captchaToken
    (w : World) (ctx : Context) (b : RegisterBody) (token : field) :
  register w ctx (with_captchaToken token b) = register w ctx b.
Proof. reflexivity. Qed.

(** The account behind a registration answered 201: stored under the
    username of the form, with the fresh digest, and with the other
    values of the form as their columns take them. *)
Lemma register_account (w : World) (ctx : Context) (b : RegisterBody)
    (body : gmap string jsval) (w' : World) :
  register w ctx b = (json 201 body, w') ->
  exists u : User,
    body = userWithoutPassword u
    /\ register_validation b = None
    /\ getUserByUsername (db w) (str (reg_username b)) = Ok None
    /\ username u = str (reg_username b)
    /\ password u = fst (hashPassword (str (reg_password b)) (rng w) (rng_pos w))
    /\ id u = serial (db w)
    /\ varchar_column 255 (or_null (reg_email b)) = Some (email u)
    /\ varchar_column 20 (or_null (reg_phone b)) = Some (phone u)
    /\ varchar_column 100 (or_null (reg_authCode b)) = Some (authCode u)
    /\ db w' = {| rows := (rows (db w) ++ [u])%list; serial := serial (db w) + 1 |}
    /\ getUserByUsername (db w') (str (reg_username b)) = Ok (Some u)
    /\ w' = logged_in
              (registered_world w
                 {| rows := (rows (db w) ++ [u])%list;
                    serial := serial (db w) + 1 |}) ctx u.
Proof.
  intros H.
  apply register_created in H
    as (row & u & Hv & Hfree & _ & -> & _ & Hrow & Hu & Hname & ->); [|done].
  apply stored_values_Some in Hrow as (_ & _ & _ & Hmail & Htel & Hpass & Hcode).
  cbn [values_of userData iv_email iv_phone iv_password iv_authCode db_email
       db_phone db_password db_authCode varchar_column] in *.
  rewrite varchar_hashPassword in Hpass. cbn in Hpass.
  exists u. repeat split; try done.
  - subst u. cbn [inserted_row password].
    by injection Hpass as <-.
  - by subst u.
  - by subst u.
  - by subst u.
  - by subst u.
  - apply getUserByUsername_Ok in Hfree as [Hnul Hfree].
    apply getUserByUsername_Ok. split; [done|].
    unfold findFirst_username in *. cbn [logged_in registered_world db rows].
    rewrite find_app, Hfree. cbn [List.find]. by rewrite Hname, String.eqb_refl.
Qed.

(** A form that passes the checks of the route and of [userDbSchema],
    holds no U+0000, fits the columns and names a free username is
    answered 201 with the account it describes, which is stored. *)
Lemma register_succeeds (w : World) (ctx : Context) (b : RegisterBody) :
  let digest := fst (hashPassword (str (reg_password b)) (rng w) (rng_pos w)) in
  let u := new_user (db w) (userData b digest) (now ctx) in
  register_validation b = None ->
  getUserByUsername (db w) (str (reg_username b)) = Ok None ->
  userDbSchema (userData b digest) = true ->
  values_have_nul (values_of (userData b digest)) = false ->
  stored_values (values_of (userData b digest))
  = Some (values_of (userData b digest)) ->
  register w ctx b
  = (json 201 (userWithoutPassword u),
     logged_in
       (registered_world w
          {| rows := (rows (db w) ++ [u])%list; serial := serial (db w) + 1 |})
       ctx u).
Proof.
  intros digest u Hv Hfree Hs Hnul Hfit. unfold register. rewrite Hv, Hfree.
  destruct (hashPassword _ _ _) as [digest' pos'] eqn:Hh.
  assert (pos' = (rng_pos w + 16)%nat) as -> by (by injection Hh).
  cbn [fst] in *. subst digest.
  apply getUserByUsername_Ok in Hfree as [_ Hfree].
  by rewrite (createUser_succeeds _ _ _ Hs Hnul Hfit Hfree), req_login_Ok.
Qed.

End RegisterFacts.

(** C1 does not hold of the code: a complete registration form sent
    without any captcha token is answered with 201, its account is stored
    and a session is issued for it. *)
Theorem register_without_captcha (K : Scrypt) (E : EmailFormat) :
  reg_captchaToken Sample.alice_no_captcha = None
  /\ exists (u : User) (w' : World),
       register Sample.empty_world (Sample.anonymous 1000) Sample.alice_no_captcha
       = (json 201 (userWithoutPassword u), w')
       /\ error_kind (json 201 (userWithoutPassword u)) = None
       /\ username u = "alice"
       /\ rows (db w') = [u]
       /\ sessions w'
          = {[ 0%nat := {| accountId := id u;
                           sessionCreatedAt := 1000;
                           expiresAt := 1000 + maxAge |} ]}.
Proof.
  split; [reflexivity|].
  pose proof (register_succeeds Sample.empty_world (Sample.anonymous 1000)
                Sample.alice_no_captcha) as Hr.
  cbv zeta in Hr. eexists _, _. split; [apply Hr|].
  - reflexivity.
  - reflexivity.
  - reflexivity.
  - unfold values_have_nul.
    cbn [values_of userData iv_username iv_firstName iv_lastName iv_email
         iv_phone iv_password iv_authCode db_password opt_has_nul].
    rewrite has_nul_hashPassword. reflexivity.
  - apply values_of_fits; try reflexivity.
    cbn [userData db_password]. unfold max_length.
    rewrite length_hashPassword. reflexivity.
  - repeat split; reflexivity.
Qed.

Lemma userWithoutPassword_fields (u : User) :
  userWithoutPassword u !! "email" = Some (nullable (email u))
  /\ userWithoutPassword u !! "phone" = Some (nullable (phone u))
  /\ userWithoutPassword u !! "authCode" = Some (nullable (authCode u)).
Proof. repeat split; reflexivity. Qed.

Lemma truthy_empty : truthy (Some "") = false.
Proof. reflexivity. Qed.

Lemma or_null_empty : or_null (Some "") = None.
Proof. reflexivity. Qed.

Lemma register_validation_contact (b : RegisterBody) (mail tel : field) :
  truthy (reg_email b) = false -> truthy (reg_phone b) = false ->
  truthy mail = false -> truthy tel = false ->
  register_validation (with_contact mail tel b) = register_validation b
  /\ exists r, register_validation b = Some r.
Proof.
  intros He Hp Hm Ht. unfold register_validation.
  cbn [with_contact reg_username reg_password reg_firstName reg_lastName
       reg_email reg_phone reg_confirmPassword].
  rewrite He, Hp, Hm, Ht. cbn [negb andb].
  split; [reflexivity|]. case_match; eauto.
Qed.

(** C9: registration turns empty optional fields into absent ones.  The
    account stored by a successful registration has [null] in each of
    [email], [phone] and [authCode] that the form held as the empty string
    (and so has the answer); and a form whose [email] and [phone] are both
    the empty string is rejected exactly as the same form with both fields
    missing is: with a [ValidationError] and no change of state. *)
Theorem register_normalizes_empty (K : Scrypt) (E : EmailFormat)
    (w : World) (ctx : Context) (b : RegisterBody) :
  (forall (body : gmap string jsval) (w' : World),
     register w ctx b = (json 201 body, w') ->
     exists u : User,
       getUserByUsername (db w') (str (reg_username b)) = Ok (Some u)
       /\ (reg_email b = Some "" ->
           email u = None /\ body !! "email" = Some JNull)
       /\ (reg_phone b = Some "" ->
           phone u = None /\ body !! "phone" = Some JNull)
       /\ (reg_authCode b = Some "" ->
           authCode u = None /\ body !! "authCode" = Some JNull))
  /\ (reg_email b = Some "" -> reg_phone b = Some "" ->
      register w ctx b = register w ctx (with_contact None None b)
      /\ exists r : Response,
           register w ctx b = (r, w) /\ error_kind r = Some ValidationError).
Proof.
  split.
  - intros body w' H.
    apply register_account in H
      as (u & -> & _ & _ & _ & _ & _ & Hmail & Htel & Hcode & _ & Hu & _).
    exists u. split; [exact Hu|]. split; [|split].
    + intros He. rewrite He in Hmail. injection Hmail as Hmail.
      rewrite (proj1 (userWithoutPassword_fields _)), <- Hmail.
      split; reflexivity.
    + intros Hp. rewrite Hp in Htel. injection Htel as Htel.
      rewrite (proj1 (proj2 (userWithoutPassword_fields _))), <- Htel.
      split; reflexivity.
    + intros Ha. rewrite Ha in Hcode. injection Hcode as Hcode.
      rewrite (proj2 (proj2 (userWithoutPassword_fields _))), <- Hcode.
      split; reflexivity.
  - intros He Hp.
    destruct (register_validation_contact b None None) as [Hsame [r Hr]];
      try (by rewrite ?He, ?Hp).
    unfold register. rewrite Hsame, Hr. split; [reflexivity|].
    exists r. split; [reflexivity|].
    by apply register_validation_rejects in Hr as [_ ->].
Qed.

Lemma register_normalizes_empty_witness :
  (exists u : User,
     getUserByUsername (db Sample.alice_world) "alice" = Ok (Some u)
     /\ email u = None /\ authCode u = None /\ phone u = Some "+12345678901")
  /\ @register Sample.toy_Scrypt Sample.toy_EmailFormat
       Sample.empty_world (Sample.anonymous 1000) Sample.no_contact
     = @register Sample.toy_Scrypt Sample.toy_EmailFormat
         Sample.empty_world (Sample.anonymous 1000)
         (with_contact None None Sample.no_contact).
Proof.
  split.
  - destruct (register_normalizes_empty Sample.toy_Scrypt Sample.toy_EmailFormat
                Sample.empty_world (Sample.anonymous 1000) Sample.alice)
      as [Hstored _].
    destruct (Hstored Sample.alice_body Sample.alice_world)
      as (u & Hu & He & _ & Ha).
    + vm_compute. reflexivity.
    + exists u. split; [exact Hu|].
      destruct (He eq_refl) as [-> _]. destruct (Ha eq_refl) as [-> _].
      split; [reflexivity|]. split; [reflexivity|].
      vm_compute in Hu. by injection Hu as <-.
  - apply (register_normalizes_empty Sample.toy_Scrypt Sample.toy_EmailFormat
             Sample.empty_world (Sample.anonymous 1000) Sample.no_contact);
      reflexivity.
Defined.

(** After a successful registration the directory holds one account
    under the username of the form, the one just stored. *)
Lemma register_stores_one (K : Scrypt) (E : EmailFormat)
    (w : World) (ctx : Context) (b : RegisterBody)
    (body : gmap string jsval) (w1 : World) :
  register w ctx b = (json 201 body, w1) ->
  exists u : User,
    getUserByUsername (db w1) (str (reg_username b)) = Ok (Some u)
    /\ List.filter (fun a => String.eqb (username a) (str (reg_username b)))
         (rows (db w1)) = [u].
Proof.
  intros H.
  apply register_account in H
    as (u & _ & _ & Hfree & Hname & _ & _ & _ & _ & _ & Hdb & Hu & _).
  exists u. split; [exact Hu|]. rewrite Hdb. cbn [rows].
  apply getUserByUsername_Ok in Hfree as [_ Hfree].
  unfold findFirst_username in Hfree.
  rewrite List.filter_app, (find_none_filter _ _ Hfree).
  cbn [List.filter app]. by rewrite Hname, String.eqb_refl.
Qed.

(** C6: after a registration has succeeded, a second registration under
    the same username (compared exactly, case included) that passes the
    validation checks is rejected with [DuplicateUsername] and changes
    nothing, and the directory holds exactly one account with that
    username. *)
Theorem register_twice (K : Scrypt) (E : EmailFormat)
    (w : World) (ctx1 : Context) (b1 : RegisterBody)
    (body : gmap string jsval) (w1 : World)
    (ctx2 : Context) (b2 : RegisterBody) :
  register w ctx1 b1 = (json 201 body, w1) ->
  reg_username b2 = reg_username b1 ->
  register_validation b2 = None ->
  register w1 ctx2 b2 = (json 400 (message "Username already exists"), w1)
  /\ error_kind (fst (register w1 ctx2 b2)) = Some DuplicateUsername
  /\ length (List.filter
               (fun a => String.eqb (username a) (str (reg_username b1)))
               (rows (db (snd (register w1 ctx2 b2))))) = 1%nat.
Proof.
  intros H1 Hname Hv.
  destruct (register_stores_one K E w ctx1 b1 body w1 H1) as (u & Hu & Hone).
  assert (register w1 ctx2 b2
          = (json 400 (message "Username already exists"), w1)) as ->.
  { unfold register. by rewrite Hv, Hname, Hu. }
  cbn [fst snd]. rewrite Hone. repeat split; reflexivity.
Qed.

Lemma register_twice_witness :
  @register Sample.toy_Scrypt Sample.toy_EmailFormat
    Sample.alice_world (Sample.anonymous 2000) Sample.alice
  = (json 400 (message "Username already exists"), Sample.alice_world)
  /\ length (List.filter (fun a => String.eqb (username a) "alice")
               (rows (db Sample.alice_world))) = 1%nat.
Proof.
  destruct (register_twice Sample.toy_Scrypt Sample.toy_EmailFormat
              Sample.empty_world (Sample.anonymous 1000) Sample.alice
              Sample.alice_body Sample.alice_world
              (Sample.anonymous 2000) Sample.alice)
    as (Hsecond & _ & Hcount).
  - vm_compute. reflexivity.
  - reflexivity.
  - reflexivity.
  - split; [exact Hsecond|]. rewrite Hsecond in Hcount. exact Hcount.
Defined.

(** Usernames are compared exactly: [Alice] is free when [alice] is
    taken. *)
Example username_case_sensitive :
  getUserByUsername (db Sample.alice_world) "alice" <> Ok None
  /\ getUserByUsername (db Sample.alice_world) "Alice" = Ok None.
Proof. split; [vm_compute; discriminate|reflexivity]. Qed.

(** ** Login, current user and logout *)

Lemma credential_truthy (fromBody fromQuery : field) :
  truthy fromBody = true -> credential fromBody fromQuery = fromBody.
Proof. intros H. unfold credential. by rewrite H. Qed.

Section LoginFacts.
Context {K : Scrypt} {E : EmailFormat}.

(** When the strategy yields a user, it is the directory's account of
    that username and the password verified. *)
Lemma authenticate_Some (w : World) (name pass : field) (u : User) :
  authenticate w name pass = Ok (Some u) ->
  truthy name = true /\ truthy pass = true
  /\ getUserByUsername (db w) (str name) = Ok (Some u)
  /\ comparePasswords (str pass) (password u) = Ok true.
Proof.
  unfold authenticate, LocalStrategy.
  destruct (truthy name), (truthy pass); cbn [negb orb]; try discriminate.
  destruct (getUserByUsername (db w) (str name)) as [[u'|]|e0]; cbn [bind];
    [|discriminate..].
  destruct (comparePasswords (str pass) (password u')) as [[|]|e] eqn:Hc;
    cbn [bind]; intros [=]. by subst.
Qed.



(** What a login answered with a body of status 200 has done. *)
Lemma login_200 (w : World) (ctx : Context) (b : LoginBody)
    (status : Z) (body : gmap string jsval) (w' : World) :
  login w ctx b = (json status body, w') ->
  200 <= status < 300 ->
  exists u : User,
    truthy (login_captchaToken b) = true
    /\ authenticate w (given_username ctx b) (given_password ctx b) = Ok (Some u)
    /\ status = 200
    /\ body = userWithoutPassword u
    /\ w' = logged_in w ctx u.
Proof.
  unfold login. intros H Hst.
  destruct (truthy (login_captchaToken b)); cbn [negb] in H; [|simplify_eq; lia].
  destruct (authenticate w (given_username ctx b) (given_password ctx b))
    as [[u|]|e]; [|simplify_eq; lia|discriminate].
  rewrite req_login_Ok in H. injection H as <- <- <-. by exists u.
Qed.

End LoginFacts.




Lemma userWithoutPassword_spec (u : User) :
  userWithoutPassword u !! "password" = None
  /\ user_object u !! "password" = Some (JStr (password u))
  /\ forall k : string,
       k <> "password" -> userWithoutPassword u !! k = user_object u !! k.
Proof.
  unfold userWithoutPassword. split; [apply lookup_delete_eq|].
  split; [reflexivity|]. intros k Hk. by apply lookup_delete_ne.
Qed.

Section HandleFacts.
Context {K : Scrypt} {E : EmailFormat}.

(** A request answered by its route was let through by the session
    middleware. *)
Lemma handle_routed (w : World) (r : Request) (response : Response) (w' : World) :
  handle w r = (response, w') ->
  (forall err, response <> next err) ->
  exists (req_user : option User) (w1 : World),
    deserializeUser w (context_of r) = Ok req_user
    /\ route w req_user r = (response, w1)
    /\ w' = touch_session w1 (context_of r).
Proof.
  unfold handle. intros H Hne.
  destruct (deserializeUser w (context_of r)) as [req_user|err].
  - destruct (route w req_user r) as [response' w1] eqn:Hr.
    injection H as <- <-. by exists req_user, w1.
  - injection H as <- _. by destruct (Hne err).
Qed.

Lemma db_touch_session (w : World) (ctx : Context) :
  db (touch_session w ctx) = db w.
Proof. unfold touch_session. by destruct (sessionID ctx). Qed.

Lemma deserializeUser_Some (w : World) (ctx : Context) (u : User) :
  deserializeUser w ctx = Ok (Some u) ->
  exists (sid : nat) (s : Session),
    sessionID ctx = Some sid
    /\ SessionStore.get (sessions w) sid (now ctx) = Some s
    /\ getUserById (db w) (accountId s) = Ok u.
Proof.
  unfold deserializeUser. destruct (sessionID ctx) as [sid|]; [|discriminate].
  destruct (SessionStore.get (sessions w) sid (now ctx)) as [s|] eqn:Hs;
    [|discriminate].
  destruct (getUserById (db w) (accountId s)) as [found|] eqn:Hf;
    cbn [bind]; [|discriminate].
  intros [= <-]. by exists sid, s.
Qed.

(** A logout that the session middleware lets through. *)
Lemma handle_logout (w : World) (ctx : Context) (req_user : option User) :
  deserializeUser w ctx = Ok req_user ->
  handle w (POST_logout ctx)
  = (sendStatus 200, touch_session (logged_out w ctx) ctx).
Proof.
  intros Hd. unfold handle. cbn [context_of route]. by rewrite Hd, logout_Ok.
Qed.

Lemma touch_logged_out (w : World) (ctx : Context) :
  touch_session (logged_out w ctx) ctx = logged_out w ctx.
Proof.
  unfold touch_session, logged_out. destruct (sessionID ctx) as [sid|]; [|done].
  cbn [db sessions issued rng rng_pos]. f_equal.
  unfold SessionStore.touch, SessionStore.get. by rewrite lookup_delete_eq.
Qed.

Lemma logged_out_idem (w : World) (ctx : Context) :
  logged_out (logged_out w ctx) ctx = logged_out w ctx.
Proof.
  unfold logged_out. destruct (sessionID ctx) as [sid|]; [|done].
  cbn [db sessions issued rng rng_pos]. by rewrite delete_delete_eq.
Qed.

Lemma deserializeUser_logged_out (w : World) (ctx : Context) :
  deserializeUser (logged_out w ctx) ctx = Ok None.
Proof.
  unfold deserializeUser, logged_out. destruct (sessionID ctx) as [sid|]; [|done].
  cbn [sessions]. unfold SessionStore.get. by rewrite lookup_delete_eq.
Qed.

End HandleFacts.

(** C7: every successful answer (status 200 or 201) of registration, login
    and current-user carries the account of the request without its
    password digest: the account the registration created, the account
    that logged in, the account of the session.  That account is in the
    directory, the body has no [password] field and agrees with the
    account, which does hold the digest, on every other field. *)
Theorem responses_exclude_password (K : Scrypt) (E : EmailFormat)
    (w : World) (r : Request) (status : Z) (body : gmap string jsval) (w' : World) :
  handle w r = (json status body, w') ->
  200 <= status < 300 ->
  exists u : User,
    account_of w w' r u
    /\ u ∈ rows (db w')
    /\ body = userWithoutPassword u
    /\ body !! "password" = None
    /\ user_object u !! "password" = Some (JStr (password u))
    /\ forall k : string, k <> "password" -> body !! k = user_object u !! k.
Proof.
  intros H Hst.
  assert (exists u, account_of w w' r u /\ u ∈ rows (db w')
                    /\ body = userWithoutPassword u)
    as (u & Hacc & Hin & ->).
  { apply handle_routed in H as (req_user & w1 & Hd & Hr & ->); [|done].
    destruct r as [ctx b|ctx b|ctx|ctx]; cbn [route context_of account_of] in *;
      rewrite ?db_touch_session.
    - assert (status = 201) as ->.
      { apply register_created in Hr as (? & ? & _ & _ & -> & _); [done|lia]. }
      apply register_account in Hr
        as (u & -> & _ & Hfree & _ & _ & _ & _ & _ & _ & _ & Hu & _).
      exists u. split; [done|]. split; [|reflexivity].
      by apply getUserByUsername_elem in Hu as [? _].
    - apply login_200 in Hr as (u & _ & Ha & _ & -> & ->); [|done].
      apply authenticate_Some in Ha as (_ & _ & Hu & Hc).
      exists u. split; [done|]. split; [|reflexivity].
      by apply getUserByUsername_elem in Hu as [? _].
    - rewrite logout_Ok in Hr. discriminate Hr.
    - unfold user in Hr. destruct req_user as [u|]; [|simplify_eq; lia].
      injection Hr as <- <- <-.
      apply deserializeUser_Some in Hd as (sid & s & Hsid & Hs & Hu).
      exists u. split; [by exists sid, s|]. split; [|reflexivity].
      by apply getUserById_elem in Hu as [? _]. }
  exists u. split; [done|]. split; [done|]. split; [done|].
  apply userWithoutPassword_spec.
Qed.

Lemma responses_exclude_password_witness :
  let reply :=
    @handle Sample.toy_Scrypt Sample.toy_EmailFormat Sample.alice_world
      (GET_user (Sample.cookie 0 5000)) in
  fst reply = json 200 (Sample.body_of (fst reply))
  /\ Sample.body_of (fst reply) !! "password" = None
  /\ Sample.body_of (fst reply) !! "username" = Some (JStr "alice").
Proof.
  intros reply.
  destruct (responses_exclude_password Sample.toy_Scrypt Sample.toy_EmailFormat
              Sample.alice_world (GET_user (Sample.cookie 0 5000))
              200 (Sample.body_of (fst reply)) (snd reply))
    as (u & _ & _ & _ & Hpw & _).
  - vm_compute. reflexivity.
  - lia.
  - split; [vm_compute; reflexivity|]. split; [exact Hpw|].
    vm_compute. reflexivity.
Defined.

(** C8 does not hold of every state: a logout under the cookie of a live
    session whose account is no longer in the table never reaches the
    route.  The session middleware fails to load the account, the request
    ends with that error, and the session is still there afterwards. *)
Lemma logout_idempotent_counterexample :
  ~ (forall (K : Scrypt) (E : EmailFormat) (w : World) (ctx : Context),
       exists w' : World,
         handle w (POST_logout ctx) = (sendStatus 200, w')
         /\ forall sid : nat, sessionID ctx = Some sid ->
                              sessions w' !! sid = None).
Proof.
  intros H.
  destruct (H Sample.toy_Scrypt Sample.toy_EmailFormat orphan_world
              (Sample.cookie 0 2000)) as (w' & Hw & _).
  vm_compute in Hw. discriminate Hw.
Qed.

(** C8 (amended): a logout is answered 200 whether or not its cookie names
    a session and whether or not that session exists, provided that the
    account of the session, if the session is live, is still in the
    directory; afterwards the named session is absent, the accounts and
    every other session are untouched, and a second logout answers 200
    again and changes nothing. *)
Theorem logout_idempotent (K : Scrypt) (E : EmailFormat) (w : World) (ctx : Context) :
  (forall (sid : nat) (s : Session),
     sessionID ctx = Some sid ->
     SessionStore.get (sessions w) sid (now ctx) = Some s ->
     exists u : User, getUserById (db w) (accountId s) = Ok u) ->
  exists w' : World,
    handle w (POST_logout ctx) = (sendStatus 200, w')
    /\ (forall sid : nat, sessionID ctx = Some sid ->
          sessions w' !! sid = None
          /\ forall t : Z, SessionStore.get (sessions w') sid t = None)
    /\ (forall other : nat, sessionID ctx <> Some other ->
          sessions w' !! other = sessions w !! other)
    /\ db w' = db w
    /\ handle w' (POST_logout ctx) = (sendStatus 200, w').
Proof.
  intros Hacc.
  assert (exists req_user, deserializeUser w ctx = Ok req_user) as [req_user Hd].
  { unfold deserializeUser. destruct (sessionID ctx) as [sid|]; [|by eexists].
    destruct (SessionStore.get (sessions w) sid (now ctx)) as [s|] eqn:Hs;
      [|by eexists].
    destruct (Hacc sid s eq_refl Hs) as [u ->]. by eexists. }
  exists (logged_out w ctx).
  rewrite (handle_logout w ctx req_user Hd), touch_logged_out.
  rewrite (handle_logout _ ctx None (deserializeUser_logged_out w ctx)).
  rewrite logged_out_idem, touch_logged_out.
  split; [reflexivity|]. unfold logged_out.
  destruct (sessionID ctx) as [sid|] eqn:Hsid; cbn [sessions db].
  - split; [|split; [|done]].
    + intros ? [= <-]. split; [apply lookup_delete_eq|].
      intros t. unfold SessionStore.get. by rewrite lookup_delete_eq.
    + intros other Hne. apply lookup_delete_ne. congruence.
  - repeat split; congruence.
Qed.

Lemma logout_idempotent_witness :
  exists w' : World,
    @handle Sample.toy_Scrypt Sample.toy_EmailFormat Sample.alice_world
      (POST_logout (Sample.cookie 0 5000)) = (sendStatus 200, w')
    /\ sessions w' = ∅.
Proof.
  destruct (logout_idempotent Sample.toy_Scrypt Sample.toy_EmailFormat
              Sample.alice_world (Sample.cookie 0 5000))
    as (w' & Hw & _).
  - intros sid s [= <-] Hs. vm_compute in Hs. injection Hs as <-.
    eexists. vm_compute. reflexivity.
  - exists w'. split; [exact Hw|].
    vm_compute in Hw. injection Hw as <-. reflexivity.
Defined.

(** ** Worked examples *)

Example split_dot_examples :
  split_dot "ab.cd" = ["ab"; "cd"]
  /\ split_dot "" = [""]
  /\ split_dot "abcd" = ["abcd"]
  /\ split_dot "a." = ["a"; ""]
  /\ split_dot "a.b.c" = ["a"; "b"; "c"].
Proof. repeat split; reflexivity. Qed.

Example hex_examples :
  Hex.toString_hex [x00; xff; x1a] = "00ff1a"
  /\ Hex.Buffer_from_hex "00ff1a" = [x00; xff; x1a]
  /\ Hex.Buffer_from_hex "ABcd" = [xab; xcd]
  /\ Hex.Buffer_from_hex "1ag123" = [x1a]
  /\ Hex.Buffer_from_hex "abc" = [xab]
  /\ Hex.Buffer_from_hex "zz00" = [].
Proof. repeat split; reflexivity. Qed.

(** What a [varchar] column does with a value: kept when it fits, cut
    when all that exceeds is blanks, refused otherwise. *)
Example varchar_examples :
  varchar 3 "abc" = Some "abc"
  /\ varchar 3 "abc  " = Some "abc"
  /\ varchar 3 "abcd" = None
  /\ varchar 3 "ab c " = None.
Proof. repeat split; reflexivity. Qed.

(** A digest whose salt is not hexadecimal, or that carries further
    dot-separated parts, is still verified against: only the first two
    parts are read and the salt is used as it stands. *)
Lemma comparePasswords_any_salt {K : Scrypt} (pass salt extra : string) :
  has_dot salt = false ->
  comparePasswords pass (Hex.toString_hex (scrypt pass salt 64) +:+ "." +:+ salt)
  = Ok true
  /\ comparePasswords pass
       (Hex.toString_hex (scrypt pass salt 64) +:+ "." +:+ salt +:+ "." +:+ extra)
     = Ok true.
Proof.
  intros Hsalt. unfold comparePasswords.
  rewrite !split_dot_app by (apply has_dot_toString || exact Hsalt).
  rewrite (split_dot_no_dot salt Hsalt).
  cbn [lookup list_lookup default from_option Datatypes.id bind].
  rewrite Buffer_from_toString, timingSafeEqual_same_length
    by (by rewrite scrypt_length).
  by rewrite bool_decide_eq_true_2.
Qed.

(** A login against an account whose stored digest has no separator is
    not answered at all: the error of the verification is passed on. *)
Lemma login_malformed_digest {K : Scrypt}
    (w : World) (ctx : Context) (b : LoginBody) (u : User) :
  truthy (login_captchaToken b) = true ->
  truthy (given_username ctx b) = true ->
  truthy (given_password ctx b) = true ->
  getUserByUsername (db w) (str (given_username ctx b)) = Ok (Some u) ->
  has_dot (password u) = false ->
  login w ctx b = (next ERR_INVALID_ARG_TYPE, w).
Proof.
  intros Hc Hn Hp Hu Hdot. unfold login, authenticate, LocalStrategy.
  rewrite Hc, Hn, Hp, Hu. cbn [negb orb bind].
  by rewrite (comparePasswords_no_dot _ _ Hdot).
Qed.

(** The scenario of the specification: [alice] registers, then logs in
    with the same password; the login answers 200 with the same account
    and issues a second session, distinct from the first. *)
Example register_then_login :
  let reply := @login Sample.toy_Scrypt Sample.alice_world
                 (Sample.anonymous 2000) Sample.good_login in
  fst reply = json 200 Sample.alice_body
  /\ size (sessions Sample.alice_world) = 1%nat
  /\ size (sessions (snd reply)) = 2%nat
  /\ accountId <$> sessions (snd reply) !! 1%nat = Some 1
  /\ rows (db (snd reply)) = rows (db Sample.alice_world).
Proof. vm_compute. repeat split; reflexivity. Qed.

(** A session is live until a week has passed since its last use, and
    gone after logout. *)
Example session_lifecycle :
  let get t w :=
    @handle Sample.toy_Scrypt Sample.toy_EmailFormat w
      (GET_user (Sample.cookie 0 t)) in
  fst (get 5000 Sample.alice_world) = json 200 Sample.alice_body
  /\ fst (get (1000 + maxAge) Sample.alice_world)
     = json 401 (message "Not authenticated")
  /\ fst (get (1000 + maxAge) (snd (get 5000 Sample.alice_world)))
     = json 200 Sample.alice_body
  /\ fst (get 5000 (snd (@handle Sample.toy_Scrypt Sample.toy_EmailFormat
                           Sample.alice_world
                           (POST_logout (Sample.cookie 0 5000)))))
     = json 401 (message "Not authenticated")
  /\ error_kind (json 401 (message "Not authenticated")) = Some Unauthenticated.
Proof. cbv zeta. repeat split; vm_compute; reflexivity. Qed.

(** Credentials in the query string are read when the body has none. *)
Example login_by_query :
  fst (@login Sample.toy_Scrypt Sample.alice_world
         {| sessionID := None; now := 2000;
            query_username := Some "alice";
            query_password := Some "Secret123!" |}
         {| login_username := None; login_password := None;
            login_captchaToken := Some "Zz91aa" |})
  = json 200 Sample.alice_body.
Proof. vm_compute. reflexivity. Qed.

(** * Further properties of the code *)

(** ** Keys of the directory *)

Lemma findFirst_username_None (db : Storage) (name : string) :
  findFirst_username db name = None <-> name ∉ username <$> rows db.
Proof.
  unfold findFirst_username. induction (rows db) as [|a l IH]; cbn [List.find fmap list_fmap].
  - split; [intros _; apply not_elem_of_nil|done].
  - rewrite not_elem_of_cons. destruct (String.eqb_spec (username a) name) as [->|Hne].
    + split; [discriminate|]. by intros [? _].
    + rewrite IH. split; [by split|by intros [_ ?]].
Qed.

Lemma findFirst_username_unique (db : Storage) (u : User) :
  NoDup (username <$> rows db) -> u ∈ rows db ->
  findFirst_username db (username u) = Some u.
Proof.
  unfold findFirst_username. induction (rows db) as [|a l IH];
    cbn [List.find fmap list_fmap].
  - intros _ Hin. by apply elem_of_nil in Hin.
  - intros [Hfresh Hnd]%NoDup_cons [->|Hin]%elem_of_cons.
    + by rewrite String.eqb_refl.
    + destruct (String.eqb_spec (username a) (username u)) as [Heq|_]; [|by apply IH].
      destruct Hfresh. rewrite Heq. by apply list_elem_of_fmap_2.
Qed.

Lemma getUserById_unique (db : Storage) (u : User) :
  NoDup (id <$> rows db) -> u ∈ rows db -> getUserById db (id u) = Ok u.
Proof.
  unfold getUserById. induction (rows db) as [|a l IH];
    cbn [List.find fmap list_fmap].
  - intros _ Hin. by apply elem_of_nil in Hin.
  - intros [Hfresh Hnd]%NoDup_cons [->|Hin]%elem_of_cons.
    + by rewrite Z.eqb_refl.
    + destruct (Z.eqb_spec (id a) (id u)) as [Heq|_]; [|by apply IH].
      destruct Hfresh. rewrite Heq. by apply list_elem_of_fmap_2.
Qed.

(** Appending a row under a free username, with the serial as its id,
    keeps the keys. *)
Lemma directory_keys_append (db : Storage) (u : User) :
  directory_keys db ->
  findFirst_username db (username u) = None ->
  id u = serial db ->
  directory_keys {| rows := (rows db ++ [u])%list; serial := serial db + 1 |}.
Proof.
  intros (Hn & Hi & Hlt) Hfree%findFirst_username_None Hid.
  unfold directory_keys. cbn [rows serial]. rewrite !fmap_app. cbn [fmap list_fmap].
  split; [|split].
  - apply NoDup_app. split; [done|]. split; [|apply NoDup_singleton].
    intros x Hx ->%list_elem_of_singleton. done.
  - apply NoDup_app. split; [done|]. split; [|apply NoDup_singleton].
    intros x Hx ->%list_elem_of_singleton.
    apply list_elem_of_fmap in Hx as (a & Ha & Hin).
    rewrite Forall_forall in Hlt. specialize (Hlt a Hin). lia.
  - apply Forall_app. split.
    + eapply Forall_impl; [exact Hlt|]. intros a Ha. cbn beta in *. lia.
    + apply Forall_singleton. lia.
Qed.

(** A serial that has only moved on keeps them too. *)
Lemma directory_keys_serial (db db' : Storage) :
  directory_keys db ->
  rows db' = rows db ->
  serial db <= serial db' ->
  directory_keys db'.
Proof.
  intros (Hn & Hi & Hlt) Hrows Hserial. unfold directory_keys. rewrite Hrows.
  split; [done|]. split; [done|].
  eapply Forall_impl; [exact Hlt|]. intros a Ha. cbn beta in *. lia.
Qed.

Lemma one_write_keeps_keys (db db' : Storage) :
  one_write db db' -> directory_keys db -> directory_keys db'.
Proof.
  intros [[Hrows Hserial]|(u & -> & Hfree & Hid)] Hkeys.
  - apply (directory_keys_serial db); [done..|lia].
  - by apply directory_keys_append.
Qed.

Section WritesFacts.
Context {K : Scrypt} {E : EmailFormat}.

(** Every outcome of a registration, as far as the directory goes. *)
Lemma register_writes (w : World) (ctx : Context) (b : RegisterBody) :
  db (snd (register w ctx b)) = db w
  \/ one_write (db w) (db (snd (register w ctx b))).
Proof.
  unfold register.
  destruct (register_validation b); [by left|].
  destruct (getUserByUsername (db w) (str (reg_username b))) as [[found|]|e0];
    [by left| |by left].
  destruct (hashPassword _ _ _) as [digest pos'].
  pose proof (createUser_writes (db w) (userData b digest) (now ctx)) as Hw.
  cbn zeta in Hw. destruct (createUser _ _ _) as [[u|e] db'];
    rewrite ?req_login_Ok; cbn [snd] in *; right; exact Hw.
Qed.

Lemma route_writes (w : World) (req_user : option User) (r : Request) :
  db (snd (route w req_user r)) = db w
  \/ (exists ctx b, r = POST_register ctx b)
     /\ one_write (db w) (db (snd (route w req_user r))).
Proof.
  destruct r as [ctx b|ctx b|ctx|ctx]; cbn [route].
  - destruct (register_writes w ctx b) as [H|H]; [by left|].
    right. split; [by exists ctx, b|done].
  - left. unfold login. destruct (negb _); [done|].
    destruct (authenticate _ _ _) as [[u|]|e]; [|done..].
    by rewrite req_login_Ok.
  - left. rewrite logout_Ok. unfold logged_out. by destruct (sessionID ctx).
  - left. unfold user. by case_match.
Qed.

Lemma handle_writes (w : World) (r : Request) :
  db (snd (handle w r)) = db w
  \/ (exists ctx b, r = POST_register ctx b)
     /\ one_write (db w) (db (snd (handle w r))).
Proof.
  unfold handle. destruct (deserializeUser w (context_of r)) as [req_user|err].
  - pose proof (route_writes w req_user r) as Hr.
    destruct (route w req_user r) as [response w1]. cbn [snd] in *.
    by rewrite db_touch_session.
  - left. cbn [snd]. apply db_touch_session.
Qed.

End WritesFacts.

Lemma handle_keeps_keys {K : Scrypt} {E : EmailFormat} (w : World) (r : Request) :
  directory_keys (db w) -> directory_keys (db (snd (handle w r))).
Proof.
  intros Hw. destruct (handle_writes w r) as [->|[_ H]]; [exact Hw|].
  by eapply one_write_keeps_keys.
Qed.

(** X1: the keys of the directory hold through any sequence of requests:
    usernames stay pairwise distinct, ids stay pairwise distinct and below
    the serial. *)
Theorem serve_keeps_keys (K : Scrypt) (E : EmailFormat)
    (w : World) (requests : list Request) :
  directory_keys (db w) -> directory_keys (db (serve w requests)).
Proof.
  revert w. induction requests as [|r rest IH]; intros w Hw; [exact Hw|].
  cbn [serve]. by apply IH, handle_keeps_keys.
Qed.

Lemma serve_keeps_keys_witness :
  directory_keys (db Sample.empty_world)
  /\ directory_keys
       (db (@serve Sample.toy_Scrypt Sample.toy_EmailFormat Sample.empty_world
              [POST_register (Sample.anonymous 1000) Sample.alice;
               POST_register (Sample.anonymous 2000) Sample.alice;
               POST_login (Sample.anonymous 3000) Sample.good_login])).
Proof.
  assert (directory_keys (db Sample.empty_world)) as H0.
  { repeat split; constructor. }
  split; [exact H0|].
  apply (serve_keeps_keys Sample.toy_Scrypt Sample.toy_EmailFormat). exact H0.
Defined.

(** X2: no request alters or removes an account.  After any request the
    old rows are a prefix of the new ones, with at most one row more, and
    the serial has moved on by at most one; the directory changes through
    [/api/register] only; and an answer with a body of status 400 or more
    leaves the server state as it was, but for the touch of the session
    of the request.  (A registration that is passed on as an error may
    have stored its row or drawn from the serial.) *)
Theorem handle_only_appends (K : Scrypt) (E : EmailFormat)
    (w : World) (r : Request) :
  (exists added : list User,
     rows (db (snd (handle w r))) = (rows (db w) ++ added)%list
     /\ (length added <= 1)%nat)
  /\ serial (db w) <= serial (db (snd (handle w r))) <= serial (db w) + 1
  /\ ((forall ctx b, r <> POST_register ctx b) ->
      db (snd (handle w r)) = db w)
  /\ (forall status body,
        fst (handle w r) = json status body -> 400 <= status ->
        snd (handle w r) = touch_session w (context_of r)).
Proof.
  split; [|split; [|split]].
  - destruct (handle_writes w r) as [->|[_ [[-> _]|(u & -> & _)]]].
    + exists []. split; [by rewrite app_nil_r|cbn; lia].
    + exists []. split; [by rewrite app_nil_r|cbn; lia].
    + exists [u]. split; [done|cbn; lia].
  - destruct (handle_writes w r) as [->|[_ [[_ Hs]|(u & -> & _)]]];
      cbn [serial]; lia.
  - intros Hno. destruct (handle_writes w r) as [H|[(ctx & b & ->) _]]; [done|].
    by destruct (Hno ctx b).
  - intros status body H Hst. unfold handle in *.
    destruct (deserializeUser w (context_of r)) as [req_user|err]; [|done].
    destruct (route w req_user r) as [response w1] eqn:Hr.
    cbn [fst snd] in *. subst response. f_equal.
    destruct r as [ctx b|ctx b|ctx|ctx]; cbn [route] in Hr.
    + unfold register in Hr.
      destruct (register_validation b); [by injection Hr|].
      destruct (getUserByUsername _ _) as [[found|]|e0];
        [by injection Hr| |discriminate].
      destruct (hashPassword _ _ _) as [digest pos'].
      destruct (createUser _ _ _) as [[u|e] db']; [|discriminate].
      rewrite req_login_Ok in Hr. injection Hr as <- _ _. lia.
    + unfold login in Hr. destruct (negb _); [by injection Hr|].
      destruct (authenticate _ _ _) as [[u|]|e]; [|by injection Hr|done].
      rewrite req_login_Ok in Hr. injection Hr as <- _ _. lia.
    + rewrite logout_Ok in Hr. discriminate Hr.
    + unfold user in Hr. destruct req_user; [|by injection Hr].
      by injection Hr.
Qed.

(** ** Logging in *)

(** X4: after a successful registration, a login under the same username
    that carries a captcha token and a password is answered 200, with the
    body the registration returned, when the key derived from its password
    under the salt of the stored digest is the key of the registered
    password (so always for the registered password itself), and 401
    otherwise. *)
Theorem register_then_login_any (K : Scrypt) (E : EmailFormat)
    (w : World) (ctx : Context) (b : RegisterBody)
    (body : gmap string jsval) (w1 : World) (ctx2 : Context) (l : LoginBody) :
  register w ctx b = (json 201 body, w1) ->
  login_username l = reg_username b ->
  truthy (login_captchaToken l) = true ->
  truthy (login_password l) = true ->
  let salt := Hex.toString_hex (fst (randomBytes 16 (rng w) (rng_pos w))) in
  fst (login w1 ctx2 l)
  = (if bool_decide (scrypt (str (login_password l)) salt 64
                     = scrypt (str (reg_password b)) salt 64)
     then json 200 body
     else json 401 (message "Invalid username or password"))
  /\ (login_password l = reg_password b -> fst (login w1 ctx2 l) = json 200 body).
Proof.
  intros H Hname Hcap Hpass salt.
  apply register_account in H
    as (u & -> & Hv & _ & _ & Hpw & _ & _ & _ & _ & _ & Hu & _).
  apply register_validation_None in Hv as (Hn & _).
  assert (fst (login w1 ctx2 l)
          = if bool_decide (scrypt (str (login_password l)) salt 64
                            = scrypt (str (reg_password b)) salt 64)
            then json 200 (userWithoutPassword u)
            else json 401 (message "Invalid username or password")) as Hlogin.
  { unfold login, authenticate, LocalStrategy, given_username, given_password.
    rewrite !credential_truthy by (by rewrite ?Hname).
    rewrite Hcap, Hname, Hn, Hpass, Hu. cbn [negb orb bind]. rewrite Hpw.
    rewrite hashPassword_digest, comparePasswords_digest_of. fold salt.
    cbn [bind]. case_bool_decide as Hk.
    - by rewrite bool_decide_eq_true_2, req_login_Ok.
    - by rewrite bool_decide_eq_false_2. }
  split; [exact Hlogin|].
  intros Hsame. rewrite Hlogin, Hsame. by rewrite bool_decide_eq_true_2.
Qed.

Lemma register_then_login_any_witness :
  fst (@login Sample.toy_Scrypt Sample.alice_world (Sample.anonymous 2000)
         Sample.good_login)
  = json 200 Sample.alice_body
  /\ fst (@login Sample.toy_Scrypt Sample.alice_world (Sample.anonymous 2000)
            Sample.wrong_password)
     = json 401 (message "Invalid username or password").
Proof.
  assert (@register Sample.toy_Scrypt Sample.toy_EmailFormat Sample.empty_world
            (Sample.anonymous 1000) Sample.alice
          = (json 201 Sample.alice_body, Sample.alice_world)) as Hreg.
  { vm_compute. reflexivity. }
  split.
  - apply (register_then_login_any Sample.toy_Scrypt Sample.toy_EmailFormat
             Sample.empty_world (Sample.anonymous 1000) Sample.alice
             Sample.alice_body Sample.alice_world (Sample.anonymous 2000)
             Sample.good_login Hreg); reflexivity.
  - destruct (register_then_login_any Sample.toy_Scrypt Sample.toy_EmailFormat
                Sample.empty_world (Sample.anonymous 1000) Sample.alice
                Sample.alice_body Sample.alice_world (Sample.anonymous 2000)
                Sample.wrong_password Hreg eq_refl eq_refl eq_refl) as [Hany _].
    rewrite Hany. vm_compute. reflexivity.
Defined.

(** ** Sessions *)

Lemma maxAge_pos : 0 < maxAge.
Proof. reflexivity. Qed.

Lemma touch_lookup_ne (store : gmap nat Session) (sid other : nat) (ttl now : Z) :
  sid <> other ->
  SessionStore.touch store sid ttl now !! other = store !! other.
Proof.
  intros Hne. unfold SessionStore.touch.
  destruct (SessionStore.get store sid now); [|done].
  by apply lookup_insert_ne.
Qed.

Lemma touch_lookup_None (store : gmap nat Session) (sid other : nat) (ttl now : Z) :
  store !! other = None ->
  SessionStore.touch store sid ttl now !! other = None.
Proof.
  intros Hnone. destruct (decide (sid = other)) as [->|Hne].
  - unfold SessionStore.touch, SessionStore.get. by rewrite Hnone.
  - by rewrite touch_lookup_ne.
Qed.

(** A live session that is touched starts its time to live again. *)
Lemma touch_lookup_live (store : gmap nat Session) (sid : nat) (s : Session)
    (ttl now : Z) :
  store !! sid = Some s -> now < expiresAt s ->
  SessionStore.touch store sid ttl now !! sid
  = Some {| accountId := accountId s; sessionCreatedAt := sessionCreatedAt s;
            expiresAt := now + ttl |}.
Proof.
  intros Hs Hlive%Z.ltb_lt. unfold SessionStore.touch, SessionStore.get.
  rewrite Hs, Hlive. apply lookup_insert_eq.
Qed.

(** The session [req.login] has issued, once the response has ended. *)
Lemma issued_session (w : World) (ctx : Context) (u : User) :
  sessions (touch_session (logged_in w ctx u) ctx) !! issued w
  = Some {| accountId := id u; sessionCreatedAt := now ctx;
            expiresAt := now ctx + maxAge |}.
Proof.
  assert (sessions (logged_in w ctx u) !! issued w
          = Some {| accountId := id u; sessionCreatedAt := now ctx;
                    expiresAt := now ctx + maxAge |}) as Hnew.
  { unfold logged_in. cbn [sessions]. apply lookup_insert_eq. }
  unfold touch_session. destruct (sessionID ctx) as [sid|]; [|exact Hnew].
  cbn [sessions]. destruct (decide (sid = issued w)) as [->|Hne].
  - rewrite (touch_lookup_live _ _ _ _ _ Hnew); [done|].
    cbn [expiresAt]. pose proof maxAge_pos. lia.
  - by rewrite touch_lookup_ne.
Qed.

Section SessionFacts.
Context {K : Scrypt} {E : EmailFormat}.

(** [/api/user] under the cookie of a session: the account of the
    session while it is live, 401 once it has expired or is gone. *)
Lemma handle_user (w : World) (ctx : Context) (sid : nat) :
  sessionID ctx = Some sid ->
  handle w (GET_user ctx)
  = (match SessionStore.get (sessions w) sid (now ctx) with
     | Some s =>
         match getUserById (db w) (accountId s) with
         | Ok u => json 200 (userWithoutPassword u)
         | Throw err => next err
         end
     | None => json 401 (message "Not authenticated")
     end, touch_session w ctx).
Proof.
  intros Hsid. unfold handle, deserializeUser. cbn [context_of route].
  rewrite Hsid. destruct (SessionStore.get (sessions w) sid (now ctx)) as [s|];
    [|done].
  by destruct (getUserById (db w) (accountId s)).
Qed.

(** What a request that logs a user in has done: registration and login
    answered with a body of status 200 or 201. *)
Lemma handle_logs_in (w : World) (r : Request) (status : Z)
    (body : gmap string jsval) (w' : World) :
  handle w r = (json status body, w') ->
  200 <= status < 300 ->
  (forall ctx, r <> GET_user ctx) ->
  exists (u : User) (w1 : World),
    body = userWithoutPassword u
    /\ u ∈ rows (db w')
    /\ issued w1 = issued w
    /\ w' = touch_session (logged_in w1 (context_of r) u) (context_of r).
Proof.
  intros H Hst Hr.
  apply handle_routed in H as (req_user & w1 & _ & Hroute & ->); [|done].
  rewrite db_touch_session.
  destruct r as [ctx b|ctx b|ctx|ctx]; cbn [route context_of] in *.
  - assert (status = 201) as ->.
    { apply register_created in Hroute as (? & ? & _ & _ & -> & _); [done|lia]. }
    apply register_account in Hroute
      as (u & -> & _ & _ & _ & _ & _ & _ & _ & _ & _ & Hu & ->).
    eexists u, _. split; [done|]. split; [|split; [|reflexivity]].
    + by apply getUserByUsername_elem in Hu as [? _].
    + reflexivity.
  - apply login_200 in Hroute as (u & _ & Ha & _ & -> & ->); [|done].
    apply authenticate_Some in Ha as (_ & _ & Hu & _).
    exists u, w. split; [done|]. split; [|done].
    by apply getUserByUsername_elem in Hu as [? _].
  - rewrite logout_Ok in Hroute. discriminate Hroute.
  - by destruct (Hr ctx).
Qed.

End SessionFacts.

(** X5: the session issued by a successful registration or login
    identifies its account for a week from its last use.  Presented to
    [/api/user] within [maxAge] of the request that issued it, it is
    answered with the body that request returned, and from [maxAge] on
    with 401; and a use within that time starts the week again, so that
    the next use is answered by the time passed since the first one. *)
Theorem issued_session_round_trip (K : Scrypt) (E : EmailFormat)
    (w : World) (r : Request) (status : Z) (body : gmap string jsval)
    (w' : World) (ctx1 ctx2 : Context) :
  directory_keys (db w) ->
  handle w r = (json status body, w') ->
  200 <= status < 300 ->
  (forall ctx, r <> GET_user ctx) ->
  sessionID ctx1 = Some (issued w) ->
  sessionID ctx2 = Some (issued w) ->
  handle w' (GET_user ctx1)
  = (if Z.ltb (now ctx1) (now (context_of r) + maxAge)
     then json 200 body
     else json 401 (message "Not authenticated"), touch_session w' ctx1)
  /\ (now ctx1 < now (context_of r) + maxAge ->
      fst (handle (touch_session w' ctx1) (GET_user ctx2))
      = if Z.ltb (now ctx2) (now ctx1 + maxAge)
        then json 200 body
        else json 401 (message "Not authenticated")).
Proof.
  intros Hkeys H Hst Hr Hsid1 Hsid2.
  pose proof (handle_keeps_keys w r Hkeys) as Hkeys'. rewrite H in Hkeys'.
  cbn [snd] in Hkeys'. destruct Hkeys' as (_ & Hids & _).
  apply handle_logs_in in H as (u & w1 & -> & Hin & Hissued & Hw'); [|done..].
  pose proof (issued_session w1 (context_of r) u) as Hs.
  rewrite <- Hw', Hissued in Hs.
  pose proof (getUserById_unique _ _ Hids Hin) as Hu.
  split.
  - rewrite (handle_user w' ctx1 _ Hsid1). unfold SessionStore.get.
    rewrite Hs. cbn [expiresAt accountId].
    destruct (Z.ltb (now ctx1) (now (context_of r) + maxAge)); [|done].
    cbn [accountId]. by rewrite Hu.
  - intros Hlive.
    rewrite (handle_user _ ctx2 _ Hsid2). cbn [fst].
    rewrite db_touch_session. unfold touch_session at 1. rewrite Hsid1.
    cbn [sessions]. unfold SessionStore.get at 1.
    rewrite (touch_lookup_live _ _ _ _ _ Hs) by (cbn [expiresAt]; lia).
    cbn [expiresAt accountId].
    destruct (Z.ltb (now ctx2) (now ctx1 + maxAge)); [|done].
    cbn [accountId]. by rewrite Hu.
Qed.

Lemma issued_session_round_trip_witness :
  fst (@handle Sample.toy_Scrypt Sample.toy_EmailFormat Sample.alice_world
         (GET_user (Sample.cookie 0 (1000 + maxAge - 1))))
  = json 200 Sample.alice_body
  /\ fst (@handle Sample.toy_Scrypt Sample.toy_EmailFormat Sample.alice_world
            (GET_user (Sample.cookie 0 (1000 + maxAge))))
     = json 401 (message "Not authenticated").
Proof.
  assert (directory_keys (db Sample.empty_world)) as H0.
  { repeat split; constructor. }
  assert (@handle Sample.toy_Scrypt Sample.toy_EmailFormat Sample.empty_world
            (POST_register (Sample.anonymous 1000) Sample.alice)
          = (json 201 Sample.alice_body, Sample.alice_world)) as Hreg.
  { vm_compute. reflexivity. }
  assert (forall ctx, POST_register (Sample.anonymous 1000) Sample.alice
                      <> GET_user ctx) as Hne by discriminate.
  split.
  - exact (f_equal fst
             (proj1 (issued_session_round_trip Sample.toy_Scrypt
                       Sample.toy_EmailFormat Sample.empty_world _ 201 _ _
                       (Sample.cookie 0 (1000 + maxAge - 1))
                       (Sample.cookie 0 0) H0 Hreg
                       ltac:(lia) Hne eq_refl eq_refl))).
  - exact (f_equal fst
             (proj1 (issued_session_round_trip Sample.toy_Scrypt
                       Sample.toy_EmailFormat Sample.empty_world _ 201 _ _
                       (Sample.cookie 0 (1000 + maxAge))
                       (Sample.cookie 0 0) H0 Hreg
                       ltac:(lia) Hne eq_refl eq_refl))).
Defined.

(** *** After a logout *)

Lemma session_gone_logged_in (sid : nat) (w : World) (ctx : Context) (u : User) :
  session_gone sid w -> session_gone sid (logged_in w ctx u).
Proof.
  intros [Hlt Hnone]. unfold session_gone, logged_in.
  cbn [issued sessions]. split; [lia|].
  rewrite lookup_insert_ne by lia.
  destruct (sessionID ctx) as [old|]; [|done].
  unfold SessionStore.destroy. apply lookup_delete_None. by right.
Qed.

Lemma session_gone_touch (sid : nat) (w : World) (ctx : Context) :
  session_gone sid w -> session_gone sid (touch_session w ctx).
Proof.
  intros [Hlt Hnone]. unfold session_gone, touch_session.
  destruct (sessionID ctx) as [other|]; [|done]. cbn [issued sessions].
  split; [done|]. by apply touch_lookup_None.
Qed.

Section LogoutFacts.
Context {K : Scrypt} {E : EmailFormat}.

Lemma session_gone_route (sid : nat) (w : World) (req_user : option User)
    (r : Request) :
  session_gone sid w -> session_gone sid (snd (route w req_user r)).
Proof.
  intros Hgone. destruct r as [ctx b|ctx b|ctx|ctx]; cbn [route].
  - unfold register. destruct (register_validation b); [done|].
    destruct (getUserByUsername _ _) as [[found|]|e0]; [done| |done].
    destruct (hashPassword _ _ _) as [digest pos'].
    destruct (createUser _ _ _) as [[u|e] db']; rewrite ?req_login_Ok;
      cbn [snd]; [|done].
    by apply session_gone_logged_in.
  - unfold login. destruct (negb _); [done|].
    destruct (authenticate _ _ _) as [[u|]|e]; rewrite ?req_login_Ok;
      cbn [snd]; [|done..].
    by apply session_gone_logged_in.
  - rewrite logout_Ok. unfold logged_out.
    destruct (sessionID ctx) as [old|]; [|done].
    destruct Hgone as [Hlt Hnone]. split; [done|]. cbn [snd sessions].
    apply lookup_delete_None. by right.
  - unfold user. by destruct req_user.
Qed.

Lemma session_gone_handle (sid : nat) (w : World) (r : Request) :
  session_gone sid w -> session_gone sid (snd (handle w r)).
Proof.
  intros Hgone. unfold handle.
  destruct (deserializeUser w (context_of r)) as [req_user|err].
  - pose proof (session_gone_route sid w req_user r Hgone) as Hr.
    destruct (route w req_user r) as [response w1]. cbn [snd] in *.
    by apply session_gone_touch.
  - by apply session_gone_touch.
Qed.

Lemma session_gone_serve (sid : nat) (w : World) (requests : list Request) :
  session_gone sid w -> session_gone sid (serve w requests).
Proof.
  revert w. induction requests as [|r rest IH]; intros w Hw; [exact Hw|].
  cbn [serve]. by apply IH, session_gone_handle.
Qed.

(** The state a logout that is answered leaves. *)
Lemma handle_logout_200 (w : World) (ctx : Context) (sid : nat) (w' : World) :
  sessionID ctx = Some sid ->
  handle w (POST_logout ctx) = (sendStatus 200, w') ->
  w' = {| db := db w; sessions := delete sid (sessions w);
          issued := issued w; rng := rng w; rng_pos := rng_pos w |}.
Proof.
  intros Hsid H.
  apply handle_routed in H as (req_user & w1 & _ & Hr & ->); [|done].
  cbn [route context_of] in *. unfold logout, req_logout in Hr.
  rewrite Hsid in Hr. injection Hr as <-.
  unfold touch_session. rewrite Hsid. cbn [db sessions issued rng rng_pos].
  f_equal. unfold SessionStore.touch, SessionStore.get.
  by rewrite lookup_delete_eq.
Qed.

(** The answer of a route depends on the accounts and the entropy, not on
    the sessions. *)
Lemma route_response (w1 w2 : World) (req_user : option User) (r : Request) :
  db w1 = db w2 -> rng w1 = rng w2 -> rng_pos w1 = rng_pos w2 ->
  fst (route w1 req_user r) = fst (route w2 req_user r).
Proof.
  intros Hdb Hrng Hpos. destruct r as [ctx b|ctx b|ctx|ctx]; cbn [route].
  - unfold register. rewrite Hdb, Hrng, Hpos.
    destruct (register_validation b); [done|].
    destruct (getUserByUsername _ _) as [[found|]|e0]; [done| |done].
    destruct (hashPassword _ _ _) as [digest pos'].
    destruct (createUser _ _ _) as [[u|e] db']; by rewrite ?req_login_Ok.
  - unfold login, authenticate, LocalStrategy. rewrite Hdb.
    destruct (negb (truthy (login_captchaToken b))); [done|].
    destruct (negb _ || negb _); [done|].
    destruct (getUserByUsername _ _) as [[u|]|e0]; cbn [bind]; [|done..].
    destruct (comparePasswords _ _) as [[|]|e]; cbn [bind];
      by rewrite ?req_login_Ok.
  - by rewrite !logout_Ok.
  - unfold user. by destruct req_user.
Qed.

End LogoutFacts.

(** X6: a logout that is answered ends the session of its cookie for
    good: whatever requests follow, [/api/user] under that cookie is
    answered 401, at any time.  A request under another cookie, or under
    none, is answered as it would have been before the logout. *)
Theorem logout_ends_session (K : Scrypt) (E : EmailFormat)
    (w : World) (ctx : Context) (sid : nat) (w' : World)
    (later : list Request) (ctx' : Context) (other : Request) :
  sessionID ctx = Some sid ->
  (sid < issued w)%nat ->
  handle w (POST_logout ctx) = (sendStatus 200, w') ->
  (sessionID ctx' = Some sid ->
   fst (handle (serve w' later) (GET_user ctx'))
   = json 401 (message "Not authenticated"))
  /\ (sessionID (context_of other) <> Some sid ->
      fst (handle w' other) = fst (handle w other)).
Proof.
  intros Hsid Hlt H. apply (handle_logout_200 _ _ _ _ Hsid) in H. split.
  - intros Hsid'.
    assert (session_gone sid w') as Hgone.
    { subst w'. split; [done|]. cbn [sessions].
      apply lookup_delete_eq. }
    apply (session_gone_serve _ _ later) in Hgone as [_ Hnone].
    rewrite (handle_user _ ctx' _ Hsid'). cbn [fst].
    unfold SessionStore.get. by rewrite Hnone.
  - intros Hother.
    assert (deserializeUser w' (context_of other)
            = deserializeUser w (context_of other)) as Hd.
    { unfold deserializeUser.
      destruct (sessionID (context_of other)) as [sid'|]; [|done].
      subst w'. cbn [sessions db]. unfold SessionStore.get.
      rewrite lookup_delete_ne by congruence. done. }
    unfold handle. rewrite Hd.
    destruct (deserializeUser w (context_of other)) as [req_user|err]; [|done].
    pose proof (route_response w' w req_user other) as Hr.
    destruct (route w' req_user other) as [r1 w1], (route w req_user other) as [r2 w2].
    cbn [fst] in *. apply Hr; by subst w'.
Qed.

Lemma logout_ends_session_witness :
  fst (@handle Sample.toy_Scrypt Sample.toy_EmailFormat
         (@serve Sample.toy_Scrypt Sample.toy_EmailFormat
            (snd (@handle Sample.toy_Scrypt Sample.toy_EmailFormat
                        Sample.alice_world (POST_logout (Sample.cookie 0 5000))))
            [POST_login (Sample.anonymous 6000) Sample.good_login])
         (GET_user (Sample.cookie 0 7000)))
  = json 401 (message "Not authenticated").
Proof.
  destruct (logout_ends_session Sample.toy_Scrypt Sample.toy_EmailFormat
              Sample.alice_world (Sample.cookie 0 5000) 0
              (snd (@handle Sample.toy_Scrypt Sample.toy_EmailFormat
                      Sample.alice_world (POST_logout (Sample.cookie 0 5000))))
              [POST_login (Sample.anonymous 6000) Sample.good_login]
              (Sample.cookie 0 7000) (GET_user (Sample.anonymous 0)))
    as [Hgone _].
  - reflexivity.
  - vm_compute. lia.
  - vm_compute. reflexivity.
  - apply Hgone. reflexivity.
Defined.

(** *** Sessions and their accounts *)

Lemma getUserById_grows (db db' : Storage) (added : list User) (i : Z) (u : User) :
  rows db' = (rows db ++ added)%list ->
  getUserById db i = Ok u -> getUserById db' i = Ok u.
Proof.
  unfold getUserById. intros ->. rewrite find_app.
  by destruct (List.find _ (rows db)).
Qed.

Lemma getUserById_elem_of (db : Storage) (u : User) :
  u ∈ rows db -> exists found : User, getUserById db (id u) = Ok found.
Proof.
  intros Hin%list_elem_of_In. unfold getUserById.
  destruct (List.find _ (rows db)) as [found|] eqn:Hf; [by eexists|].
  apply (find_none _ _ Hf) in Hin. by rewrite Z.eqb_refl in Hin.
Qed.

Lemma one_write_grows (db db' : Storage) :
  db' = db \/ one_write db db' ->
  exists added : list User, rows db' = (rows db ++ added)%list.
Proof.
  intros [->|[[-> _]|(u & -> & _)]].
  - exists []. by rewrite app_nil_r.
  - exists []. by rewrite app_nil_r.
  - by exists [u].
Qed.

Lemma sessions_sound_grows (w w' : World) :
  sessions_sound w ->
  sessions w' = sessions w ->
  (exists added : list User, rows (db w') = (rows (db w) ++ added)%list) ->
  sessions_sound w'.
Proof.
  intros Hsound Hs [added Hrows] sid s Hsid. rewrite Hs in Hsid.
  destruct (Hsound sid s Hsid) as [u Hu]. exists u.
  by apply (getUserById_grows (db w) _ added).
Qed.

Lemma sessions_sound_touch (w : World) (ctx : Context) :
  sessions_sound w -> sessions_sound (touch_session w ctx).
Proof.
  intros Hsound sid s. unfold touch_session.
  destruct (sessionID ctx) as [touched|]; [|apply Hsound]. cbn [sessions db].
  unfold SessionStore.touch.
  destruct (SessionStore.get (sessions w) touched (now ctx)) as [s0|] eqn:Hget;
    [|apply Hsound].
  destruct (decide (touched = sid)) as [->|Hne].
  - rewrite lookup_insert_eq. intros [= <-]. cbn [accountId].
    unfold SessionStore.get in Hget.
    destruct (sessions w !! sid) as [s1|] eqn:Hs1; [|discriminate].
    destruct (Z.ltb (now ctx) (expiresAt s1)); [|discriminate].
    injection Hget as <-. by apply (Hsound sid s1).
  - rewrite lookup_insert_ne by done. apply Hsound.
Qed.

Lemma sessions_sound_logged_in (w : World) (ctx : Context) (u : User) :
  sessions_sound w -> u ∈ rows (db w) -> sessions_sound (logged_in w ctx u).
Proof.
  intros Hsound Hin sid s. unfold logged_in.
  cbn [sessions db]. destruct (decide (issued w = sid)) as [->|Hne].
  - rewrite lookup_insert_eq. intros [= <-]. cbn [accountId].
    by apply getUserById_elem_of.
  - rewrite lookup_insert_ne by done.
    destruct (sessionID ctx) as [old|]; [|apply Hsound].
    intros [_ Hs]%lookup_delete_Some.
    by apply (Hsound sid s).
Qed.

Section SoundFacts.
Context {K : Scrypt} {E : EmailFormat}.

Lemma createUser_Ok_elem (db : Storage) (user : DbUser) (now : Z)
    (u : User) (db' : Storage) :
  createUser db user now = (Ok u, db') -> u ∈ rows db'.
Proof.
  unfold createUser. destruct (negb (userDbSchema user)); [discriminate|].
  destruct (db_insert db (values_of user) now) as [[|] db1]; [|discriminate].
  destruct (getUserByUsername db1 (db_username user)) as [[found|]|e] eqn:Hf;
    [|discriminate..].
  intros [= <- <-]. by apply getUserByUsername_elem in Hf as [? _].
Qed.

Lemma sessions_sound_route (w : World) (req_user : option User) (r : Request) :
  sessions_sound w -> sessions_sound (snd (route w req_user r)).
Proof.
  intros Hsound. destruct r as [ctx b|ctx b|ctx|ctx]; cbn [route].
  - unfold register. destruct (register_validation b); [done|].
    destruct (getUserByUsername _ _) as [[found|]|e0]; [done| |done].
    destruct (hashPassword _ _ _) as [digest pos'].
    pose proof (createUser_writes (db w) (userData b digest) (now ctx)) as Hw.
    cbn zeta in Hw.
    destruct (createUser _ _ _) as [[u|e] db'] eqn:Hc; rewrite ?req_login_Ok;
      cbn [snd] in *.
    + apply sessions_sound_logged_in.
      * apply (sessions_sound_grows w); [done|done|].
        apply one_write_grows. by right.
      * by apply createUser_Ok_elem in Hc.
    + apply (sessions_sound_grows w); [done|done|].
      apply one_write_grows. by right.
  - unfold login. destruct (negb _); [done|].
    destruct (authenticate _ _ _) as [[u|]|e] eqn:Ha; rewrite ?req_login_Ok;
      cbn [snd]; [|done..].
    apply sessions_sound_logged_in; [done|].
    apply authenticate_Some in Ha as (_ & _ & Hu & _).
    by apply getUserByUsername_elem in Hu as [? _].
  - rewrite logout_Ok. unfold logged_out.
    destruct (sessionID ctx) as [old|]; [|done].
    cbn [snd]. intros sid s. cbn [sessions db].
    intros [_ Hs]%lookup_delete_Some. by apply (Hsound sid s).
  - unfold user. by destruct req_user.
Qed.

Lemma sessions_sound_handle (w : World) (r : Request) :
  sessions_sound w -> sessions_sound (snd (handle w r)).
Proof.
  intros Hsound. unfold handle.
  destruct (deserializeUser w (context_of r)) as [req_user|err].
  - pose proof (sessions_sound_route w req_user r Hsound) as Hr.
    destruct (route w req_user r) as [response w1]. cbn [snd] in *.
    by apply sessions_sound_touch.
  - by apply sessions_sound_touch.
Qed.

Lemma sessions_sound_serve (w : World) (requests : list Request) :
  sessions_sound w -> sessions_sound (serve w requests).
Proof.
  revert w. induction requests as [|r rest IH]; intros w Hw; [exact Hw|].
  cbn [serve]. by apply IH, sessions_sound_handle.
Qed.

(** Where every session has its account, the session middleware lets
    every request through. *)
Lemma deserializeUser_sound (w : World) (ctx : Context) :
  sessions_sound w -> exists req_user, deserializeUser w ctx = Ok req_user.
Proof.
  intros Hsound. unfold deserializeUser.
  destruct (sessionID ctx) as [sid|]; [|by eexists].
  destruct (SessionStore.get (sessions w) sid (now ctx)) as [s|] eqn:Hget;
    [|by eexists].
  unfold SessionStore.get in Hget.
  destruct (sessions w !! sid) as [s1|] eqn:Hs1; [|discriminate].
  destruct (Z.ltb (now ctx) (expiresAt s1)); [|discriminate].
  injection Hget as <-. destruct (Hsound sid s1 Hs1) as [u ->]. by eexists.
Qed.

End SoundFacts.

(** X20: the routes never leave a session without its account.  If every
    session of the store names an account of the table (as in the empty
    store), that stays so through any sequence of requests, and then no
    request is ended by the session middleware: in particular every
    logout reaches its route and is answered 200. *)
Theorem serve_logout_answers (K : Scrypt) (E : EmailFormat)
    (w : World) (requests : list Request) (ctx : Context) :
  sessions_sound w ->
  sessions_sound (serve w requests)
  /\ exists w' : World,
       handle (serve w requests) (POST_logout ctx) = (sendStatus 200, w').
Proof.
  intros Hsound%(sessions_sound_serve w requests). split; [exact Hsound|].
  destruct (deserializeUser_sound (serve w requests) ctx Hsound) as [req_user Hd].
  rewrite (handle_logout _ ctx req_user Hd). by eexists.
Qed.

Lemma serve_logout_answers_witness :
  exists w' : World,
    @handle Sample.toy_Scrypt Sample.toy_EmailFormat
      (@serve Sample.toy_Scrypt Sample.toy_EmailFormat Sample.empty_world
         [POST_register (Sample.anonymous 1000) Sample.alice;
          POST_login (Sample.anonymous 3000) Sample.good_login])
      (POST_logout (Sample.cookie 1 4000))
    = (sendStatus 200, w').
Proof.
  apply (serve_logout_answers Sample.toy_Scrypt Sample.toy_EmailFormat
           Sample.empty_world
           [POST_register (Sample.anonymous 1000) Sample.alice;
            POST_login (Sample.anonymous 3000) Sample.good_login]
           (Sample.cookie 1 4000)).
  intros sid s Hs. unfold Sample.empty_world in Hs. cbn [sessions] in Hs.
  rewrite lookup_empty in Hs. discriminate Hs.
Defined.

(** ** Salts *)

Lemma toString_hex_inj (a b : list byte) :
  Hex.toString_hex a = Hex.toString_hex b -> a = b.
Proof.
  intros H. by rewrite <-(Buffer_from_toString a), <-(Buffer_from_toString b), H.
Qed.

Lemma split_dot_digest_of {K : Scrypt} (pass : string) (saltBytes : list byte) :
  split_dot (digest_of pass saltBytes)
  = [Hex.toString_hex (scrypt pass (Hex.toString_hex saltBytes) 64);
     Hex.toString_hex saltBytes].
Proof.
  unfold digest_of. rewrite split_dot_app by apply has_dot_toString.
  by rewrite split_dot_no_dot by apply has_dot_toString.
Qed.

(** X7: hashing reads exactly the next 16 bytes of the entropy source, and
    two digests of one password are equal exactly when the 16 bytes drawn
    for their salts are: hashing the same password twice gives two
    different digests unless the source repeats itself. *)
Theorem hash_twice (K : Scrypt) (pass : string) (rng : nat -> byte) (pos pos' : nat) :
  snd (hashPassword pass rng pos) = (pos + 16)%nat
  /\ (fst (hashPassword pass rng pos) = fst (hashPassword pass rng pos')
      <-> forall i : nat, (i < 16)%nat -> rng (pos + i)%nat = rng (pos' + i)%nat).
Proof.
  split; [reflexivity|].
  rewrite !hashPassword_digest.
  assert (fst (randomBytes 16 rng pos) = fst (randomBytes 16 rng pos')
          <-> forall i : nat, (i < 16)%nat -> rng (pos + i)%nat = rng (pos' + i)%nat)
    as <-.
  { unfold randomBytes. cbn [fst]. split.
    - intros Heq i Hi.
      assert (map rng (seq pos 16) !! i = map rng (seq pos' 16) !! i) as Hl
        by (by rewrite Heq).
      change (map rng) with (fmap (M:=list) rng) in Hl.
      rewrite !list_lookup_fmap, !lookup_seq_lt in Hl by done.
      by injection Hl.
    - intros Heq. apply list_eq. intros i.
      change (map rng) with (fmap (M:=list) rng).
      rewrite !list_lookup_fmap.
      destruct (decide (i < 16)%nat) as [Hi|Hi].
      + rewrite !lookup_seq_lt by done. cbn. by rewrite Heq.
      + rewrite !lookup_seq_ge by lia. done. }
  split.
  - intros Heq. apply (f_equal split_dot) in Heq.
    rewrite !split_dot_digest_of in Heq.
    apply (f_equal (fun parts : list string => parts !! 1%nat)) in Heq.
    cbn [lookup list_lookup] in Heq. apply toString_hex_inj. congruence.
  - by intros ->.
Qed.

(** ** What the route's validation lets through *)

(** X8: a form that passes the three checks of the route under a free
    username but has a first or last name of fewer than 2 characters, a
    username of fewer than 3, or a non-empty email that the format check
    refuses, is not answered with a 400: the password is hashed first (16
    bytes of entropy are read), then [userDbSchema.parse] throws, the
    error is passed to [next], and nothing is stored and no session is
    issued. *)
Theorem register_schema_failure (K : Scrypt) (E : EmailFormat)
    (w : World) (ctx : Context) (b : RegisterBody) :
  register_validation b = None ->
  getUserByUsername (db w) (str (reg_username b)) = Ok None ->
  (String.length (str (reg_firstName b)) < 2)%nat
  \/ (String.length (str (reg_lastName b)) < 2)%nat
  \/ (String.length (str (reg_username b)) < 3)%nat
  \/ (truthy (reg_email b) = true /\ is_email (str (reg_email b)) = false) ->
  register w ctx b
  = (next ZodError,
     {| db := db w; sessions := sessions w; issued := issued w; rng := rng w;
        rng_pos := (rng_pos w + 16)%nat |}).
Proof.
  intros Hv Hfree Hbad. unfold register. rewrite Hv, Hfree.
  destruct (hashPassword _ _ _) as [digest pos'] eqn:Hh.
  assert (pos' = (rng_pos w + 16)%nat) as -> by (by injection Hh).
  assert (userDbSchema (userData b digest) = false) as Hs.
  { unfold userDbSchema, min_length. cbn [userData db_firstName db_lastName
      db_username db_email].
    destruct Hbad as [H|[H|[H|[Ht H]]]].
    - apply Nat.leb_gt in H. by rewrite H.
    - apply Nat.leb_gt in H. rewrite H. by rewrite andb_false_r.
    - apply Nat.leb_gt in H. rewrite H. by rewrite !andb_false_r.
    - unfold or_null. rewrite Ht. destruct (truthy_str _ Ht) as [-> _].
      cbn [opt_all]. cbn [str default from_option Datatypes.id] in H.
      rewrite H. by rewrite !andb_false_r. }
  unfold createUser. by rewrite Hs.
Qed.

Lemma register_schema_failure_witness :
  @register Sample.toy_Scrypt Sample.toy_EmailFormat Sample.empty_world
    (Sample.anonymous 1000) Sample2.short_name
  = (next ZodError,
     {| db := db Sample.empty_world; sessions := sessions Sample.empty_world;
        issued := issued Sample.empty_world; rng := rng Sample.empty_world;
        rng_pos := (rng_pos Sample.empty_world + 16)%nat |}).
Proof.
  apply (register_schema_failure Sample.toy_Scrypt Sample.toy_EmailFormat
           Sample.empty_world (Sample.anonymous 1000) Sample2.short_name).
  - reflexivity.
  - reflexivity.
  - left. vm_compute. lia.
Defined.

(** ** The client's schemas against the server *)

Lemma string_min_truthy (n : nat) (v : field) :
  (0 < n)%nat -> string_min n v = true ->
  truthy v = true /\ (n <= String.length (str v))%nat.
Proof.
  destruct v as [s|]; [|discriminate]. cbn [string_min truthy str default
    from_option Datatypes.id].
  intros Hn Hlen%Nat.leb_le. split; [|done].
  destruct s; [cbn in Hlen; lia|reflexivity].
Qed.

Lemma phone_format_length (s : string) :
  phone_format s = true -> (String.length s <= 16)%nat.
Proof.
  unfold phone_format. intros H.
  apply andb_prop in H as [_ H%Nat.leb_le].
  destruct s as [|c rest]; [cbn; lia|].
  destruct (Ascii.eqb_spec c "+") as [->|Hc].
  - cbn [String.length] in *. lia.
  - assert (match String c rest with
            | String "+" tail => tail
            | _ => String c rest
            end = String c rest) as Hm.
    { destruct c as [[] [] [] [] [] [] [] []]; try reflexivity. by destruct Hc. }
    rewrite Hm in H. lia.
Qed.

Section SchemaFacts.
Context {E : EmailFormat}.

Lemma optional_or_empty_or_null (check : string -> bool) (v : field) :
  optional_or_empty check v = true -> opt_all check (or_null v) = true.
Proof.
  destruct v as [s|]; [|done]. unfold or_null, truthy. cbn [optional_or_empty].
  destruct (String.eqb s ""); cbn [negb opt_all]; [done|].
  by rewrite orb_false_r.
Qed.

End SchemaFacts.

Lemma insertUserSchema_implies {E : EmailFormat}
    (data : RegisterBody) (digest : string) :
  insertUserSchema data = true ->
  register_validation data = None
  /\ userDbSchema (userData data digest) = true
  /\ opt_max_length 20 (or_null (reg_phone data)) = true.
Proof.
  unfold insertUserSchema. intros H.
  repeat (apply andb_prop in H as [H ?]).
  destruct (string_min_truthy 2 (reg_firstName data)) as [Hf Hfl]; [lia|done|].
  destruct (string_min_truthy 2 (reg_lastName data)) as [Hl Hll]; [lia|done|].
  destruct (string_min_truthy 3 (reg_username data)) as [Hu Hul]; [lia|done|].
  destruct (string_min_truthy 8 (reg_password data)) as [Hp _]; [lia|done|].
  split; [|split].
  - apply register_validation_None. repeat split; try done.
    + by apply orb_prop.
    + by eapply bool_decide_eq_true_1.
  - unfold userDbSchema, min_length.
    cbn [userData db_firstName db_lastName db_username db_email].
    apply Nat.leb_le in Hfl, Hll, Hul. rewrite Hfl, Hll, Hul. cbn [andb].
    by apply optional_or_empty_or_null.
  - pose proof (optional_or_empty_or_null phone_format (reg_phone data)) as Hph.
    destruct (or_null (reg_phone data)) as [s|]; [|done].
    cbn [opt_all opt_max_length] in *. apply Nat.leb_le.
    pose proof (phone_format_length s). naive_solver lia.
Qed.

(** X9: a registration form that the client's [insertUserSchema] accepts
    is never refused by the server's own validation: it passes the three
    checks of the route and, whatever the digest, [userDbSchema]; and its
    phone number fits the [phone] column. *)
Theorem client_valid_passes_server (E : EmailFormat)
    (data : RegisterBody) (digest : string) :
  insertUserSchema data = true ->
  register_validation data = None
  /\ userDbSchema (userData data digest) = true
  /\ opt_max_length 20 (or_null (reg_phone data)) = true.
Proof. apply insertUserSchema_implies. Qed.

Lemma client_valid_passes_server_witness :
  @register_validation Sample2.frank = None
  /\ @userDbSchema Sample.toy_EmailFormat (userData Sample2.frank "") = true.
Proof.
  destruct (client_valid_passes_server Sample.toy_EmailFormat Sample2.frank "")
    as (Hv & Hs & _).
  - reflexivity.
  - split; [exact Hv|exact Hs].
Defined.

Lemma opt_max_length_or_null (n : nat) (v : field) :
  opt_max_length n v = true -> opt_max_length n (or_null v) = true.
Proof. unfold or_null. by destruct (truthy v), v. Qed.

Lemma opt_has_nul_or_null (v : field) :
  opt_has_nul v = false -> opt_has_nul (or_null v) = false.
Proof. unfold or_null. by destruct (truthy v), v. Qed.

Lemma has_nul_str (v : field) : opt_has_nul v = false -> has_nul (str v) = false.
Proof. by destruct v. Qed.

(** X10: a form that [insertUserSchema] accepts, under a username that
    the lookup finds free, is registered when its values are ones the
    table takes as they are: names and username of at most 100
    characters, an email of at most 255 and an auth code of at most 100,
    none of them holding the character U+0000.  The answer is then 201 and the account is stored
    under its username with the names of the form. *)
Theorem client_valid_registers (K : Scrypt) (E : EmailFormat)
    (w : World) (ctx : Context) (data : RegisterBody) :
  insertUserSchema data = true ->
  getUserByUsername (db w) (str (reg_username data)) = Ok None ->
  (String.length (str (reg_firstName data)) <= 100)%nat ->
  (String.length (str (reg_lastName data)) <= 100)%nat ->
  (String.length (str (reg_username data)) <= 100)%nat ->
  opt_max_length 255 (reg_email data) = true ->
  opt_max_length 100 (reg_authCode data) = true ->
  opt_has_nul (reg_firstName data) = false ->
  opt_has_nul (reg_lastName data) = false ->
  opt_has_nul (reg_email data) = false ->
  opt_has_nul (reg_phone data) = false ->
  opt_has_nul (reg_authCode data) = false ->
  exists (u : User) (w' : World),
    register w ctx data = (json 201 (userWithoutPassword u), w')
    /\ getUserByUsername (db w') (str (reg_username data)) = Ok (Some u)
    /\ username u = str (reg_username data)
    /\ firstName u = str (reg_firstName data)
    /\ lastName u = str (reg_lastName data)
    /\ id u = serial (db w)
    /\ createdAt u = now ctx.
Proof.
  intros Hschema Hfree Hf Hl Hu He Ha Nf Nl Ne Np Na.
  pose proof Hfree as [Nu Hnone]%getUserByUsername_Ok.
  set (digest := fst (hashPassword (str (reg_password data)) (rng w) (rng_pos w))).
  destruct (insertUserSchema_implies data digest Hschema) as (Hv & Hs & Hp).
  pose proof (register_succeeds w ctx data Hv Hfree Hs) as Hr. cbv zeta in Hr.
  eexists _, _. split; [apply Hr|].
  - unfold values_have_nul.
    cbn [values_of userData iv_username iv_firstName iv_lastName iv_email
         iv_phone iv_password iv_authCode db_username db_firstName db_lastName
         db_email db_phone db_password db_authCode opt_has_nul].
    rewrite Nu, !has_nul_str, !opt_has_nul_or_null, has_nul_hashPassword by done.
    reflexivity.
  - apply values_of_fits;
      cbn [userData db_username db_firstName db_lastName db_email db_phone
           db_password db_authCode]; unfold max_length;
      rewrite ?length_hashPassword; try (by apply Nat.leb_le);
      try (by apply opt_max_length_or_null); done.
  - split; [|repeat split]. apply getUserByUsername_Ok. split; [done|].
    unfold findFirst_username in *. cbn [logged_in registered_world db rows].
    rewrite find_app, Hnone. cbn [List.find].
    cbn [new_user inserted_row values_of userData username iv_username
         db_username str default from_option Datatypes.id].
    by rewrite String.eqb_refl.
Qed.

Lemma client_valid_registers_witness :
  exists (u : User) (w' : World),
    @register Sample.toy_Scrypt Sample.toy_EmailFormat Sample.alice_world
      (Sample.anonymous 6000) Sample2.frank
    = (json 201 (userWithoutPassword u), w')
    /\ username u = "frank" /\ id u = 2.
Proof.
  destruct (client_valid_registers Sample.toy_Scrypt Sample.toy_EmailFormat
              Sample.alice_world (Sample.anonymous 6000) Sample2.frank)
    as (u & w' & Hr & _ & Hn & _ & _ & Hid & _);
    try reflexivity; try (vm_compute; lia).
  exists u, w'. split; [exact Hr|]. split; [exact Hn|]. rewrite Hid.
  vm_compute. reflexivity.
Defined.

(** ** What the client submits *)

(** X11: [onRegisterSubmit] hands a body to the server only when the
    captcha entered is the code shown, and that body is the form with the
    contact that was not selected emptied.  A registration of it that
    succeeds stores [null] in the column of the other contact and the
    selected contact as its column takes it (unchanged when it fits, cut
    to the length of the column otherwise); and when the selected contact
    is empty the server refuses the body with a [ValidationError],
    whatever the form held as the other contact. *)
Theorem submission_one_contact (K : Scrypt) (E : EmailFormat)
    (captchaCode enteredCaptcha : string) (contactMethod : ContactMethod)
    (data sub : RegisterBody) (w : World) (ctx : Context) :
  onRegisterSubmit captchaCode enteredCaptcha contactMethod data = Some sub ->
  enteredCaptcha = captchaCode
  /\ sub = submissionData contactMethod data
  /\ (forall body w',
        register w ctx sub = (json 201 body, w') ->
        exists u : User,
          getUserByUsername (db w') (str (reg_username data)) = Ok (Some u)
          /\ match contactMethod with
             | by_email =>
                 phone u = None
                 /\ varchar_column 255 (reg_email data) = Some (email u)
             | by_phone =>
                 email u = None
                 /\ varchar_column 20 (reg_phone data) = Some (phone u)
             end)
  /\ (truthy (match contactMethod with
              | by_email => reg_email data
              | by_phone => reg_phone data
              end) = false ->
      exists r : Response,
        register w ctx sub = (r, w) /\ error_kind r = Some ValidationError).
Proof.
  unfold onRegisterSubmit.
  destruct (String.eqb_spec enteredCaptcha captchaCode) as [->|]; [|discriminate].
  cbn [negb]. intros [= <-]. split; [done|]. split; [done|]. split.
  - intros body w' H.
    apply register_account in H
      as (u & _ & Hv & _ & _ & _ & _ & Hmail & Htel & _ & _ & Hu & _).
    apply register_validation_None in Hv as (_ & _ & _ & _ & Hcontact & _).
    exists u. split; [exact Hu|].
    destruct contactMethod;
      cbn [submissionData with_contact reg_email reg_phone] in *.
    + destruct Hcontact as [Ht|Ht]; [|discriminate].
      unfold or_null in Hmail. rewrite Ht in Hmail.
      split; [|exact Hmail]. by injection Htel.
    + destruct Hcontact as [Ht|Ht]; [discriminate|].
      unfold or_null in Htel. rewrite Ht in Htel.
      split; [|exact Htel]. by injection Hmail.
  - intros Hempty.
    assert (exists r, register_validation (submissionData contactMethod data) = Some r)
      as [r Hr].
    { destruct (register_validation (submissionData contactMethod data)) eqn:Hv;
        [by eexists|].
      apply register_validation_None in Hv as (_ & _ & _ & _ & Hcontact & _).
      destruct contactMethod;
        cbn [submissionData with_contact reg_email reg_phone] in Hcontact;
        destruct Hcontact as [Ht|Ht]; (congruence || discriminate Ht). }
    exists r. unfold register. rewrite Hr. split; [done|].
    by apply register_validation_rejects in Hr as [_ ->].
Qed.

Lemma submission_one_contact_witness :
  let reply := @register Sample.toy_Scrypt Sample.toy_EmailFormat
                 Sample.empty_world (Sample.anonymous 1000)
                 (submissionData by_email Sample2.frank) in
  exists u : User,
    getUserByUsername (db (snd reply)) "frank" = Ok (Some u)
    /\ phone u = None /\ email u = Some "frank@example.com".
Proof.
  intros reply.
  destruct (submission_one_contact Sample.toy_Scrypt Sample.toy_EmailFormat
              "x7Kq2P" "x7Kq2P" by_email Sample2.frank
              (submissionData by_email Sample2.frank)
              Sample.empty_world (Sample.anonymous 1000) eq_refl)
    as (_ & _ & Hstored & _).
  destruct (Hstored (Sample.body_of (fst reply)) (snd reply))
    as (u & Hu & Hphone & Hemail).
  - vm_compute. reflexivity.
  - exists u. split; [exact Hu|]. split; [exact Hphone|].
    vm_compute in Hemail. by injection Hemail.
Defined.

(** The selected contact is not always stored as the form holds it: a
    phone number of more than 20 characters whose excess is blanks is
    cut by its column, and the registration is answered 201 all the
    same. *)
Example register_cut_phone :
  let reply := @register Sample.toy_Scrypt Sample.toy_EmailFormat
                 Sample.empty_world (Sample.anonymous 1000)
                 (submissionData by_phone Sample2.padded_phone) in
  (exists body, fst reply = json 201 body)
  /\ phone <$> rows (db (snd reply)) = [Some "+1234567890123456789"]
  /\ reg_phone Sample2.padded_phone = Some "+1234567890123456789  ".
Proof. cbv zeta. split; [eexists|split]; vm_compute; reflexivity. Qed.

(** A username that holds the character U+0000 is refused by the
    database as a parameter of the first query: the registration is
    passed on as that error before anything is hashed or stored, and a
    login under it likewise. *)
Example register_nul_username :
  @register Sample.toy_Scrypt Sample.toy_EmailFormat
    Sample.empty_world (Sample.anonymous 1000) Sample2.nul_username
  = (next DatabaseError, Sample.empty_world)
  /\ fst (@login Sample.toy_Scrypt Sample.empty_world (Sample.anonymous 1000)
            {| login_username := reg_username Sample2.nul_username;
               login_password := Some "Secret123!";
               login_captchaToken := Some "Zz91aa" |})
     = next DatabaseError.
Proof. split; reflexivity. Qed.

(** A username of more than 100 characters whose excess is blanks is
    stored cut to 100, and [createUser], which reads the row back by the
    username it was given, does not find it: the registration is passed
    on as an error although its account is now in the table, under a
    name that a later registration finds taken. *)
Example register_cut_username :
  let reply := @register Sample.toy_Scrypt Sample.toy_EmailFormat
                 Sample.empty_world (Sample.anonymous 1000)
                 Sample2.padded_username in
  String.length (str (reg_username Sample2.padded_username)) = 101%nat
  /\ fst reply = next InsertedUserNotFound
  /\ (String.length ∘ username) <$> rows (db (snd reply)) = [100%nat]
  /\ sessions (snd reply) = ∅
  /\ serial (db (snd reply)) = 2.
Proof. cbv zeta. repeat split; vm_compute; reflexivity. Qed.

(** ** The import script *)

Lemma findFirst_username_app_l (db db' : Storage) (added : list User)
    (name : string) (u : User) :
  rows db' = (rows db ++ added)%list ->
  findFirst_username db name = Some u ->
  findFirst_username db' name = Some u.
Proof.
  unfold findFirst_username. intros -> H. by rewrite find_app, H.
Qed.

Lemma findFirst_username_rows (db db' : Storage) (name : string) :
  rows db' = rows db -> findFirst_username db' name = findFirst_username db name.
Proof. unfold findFirst_username. by intros ->. Qed.

Lemma db_insert_fst (db : Storage) (v : InsertValues) (now : Z) :
  fst (db_insert db v now) = insert_succeeds db v.
Proof.
  unfold db_insert, insert_succeeds. destruct (values_have_nul v); [done|].
  destruct (stored_values v) as [row|]; [|done].
  by destruct (insert_accepts db row).
Qed.

Lemma insert_succeeds_rows (db db' : Storage) (v : InsertValues) :
  rows db' = rows db -> insert_succeeds db' v = insert_succeeds db v.
Proof.
  intros Hrows. unfold insert_succeeds, insert_accepts.
  destruct (stored_values v) as [row|]; [|done].
  by rewrite (findFirst_username_rows db db' _ Hrows).
Qed.

(** The row of an insert that succeeds is stored under the username the
    column makes of the one given. *)
Lemma stored_username (v row : InsertValues) (name : string) :
  iv_username v = Some name ->
  stored_values v = Some row ->
  exists t : string, iv_username row = Some t /\ varchar 100 name = Some t.
Proof.
  intros Hname (Hu & _)%stored_values_Some. rewrite Hname in Hu.
  cbn [varchar_column] in Hu. destruct (varchar 100 name) as [t|]; [|discriminate].
  injection Hu as <-. by exists t.
Qed.


Section ImportFacts.
Context {K : Scrypt}.

(** The password of the insert is the one of the record when that is
    empty, missing or holds a dot, and a fresh digest of it otherwise. *)
Lemma import_password_cases (rng : nat -> byte) (pos : nat) (user : ImportUser) :
  (truthy (imp_password user) = true
   /\ has_dot (str (imp_password user)) = false
   /\ import_password rng pos user
      = (Some (fst (hashPassword (str (imp_password user)) rng pos)),
         (pos + 16)%nat))
  \/ ((truthy (imp_password user) = false
       \/ has_dot (str (imp_password user)) = true)
      /\ import_password rng pos user = (imp_password user, pos)).
Proof.
  unfold import_password.
  destruct (truthy (imp_password user)), (has_dot (str (imp_password user)));
    cbn [negb andb]; auto.
Qed.

(** Whether the table takes a record does not depend on the entropy its
    password is hashed with. *)
Lemma import_succeeds_any_entropy (db : Storage) (user : ImportUser)
    (rng rng' : nat -> byte) (pos pos' : nat) :
  insert_succeeds db (import_values user (fst (import_password rng pos user)))
  = insert_succeeds db (import_values user (fst (import_password rng' pos' user))).
Proof.
  destruct (import_password_cases rng pos user) as [(Ht & Hd & ->)|[Hc ->]];
    destruct (import_password_cases rng' pos' user) as [(Ht' & Hd' & ->)|[Hc' ->]];
    try reflexivity.
  - unfold insert_succeeds, values_have_nul, stored_values, insert_accepts.
    cbn [fst import_values iv_firstName iv_lastName iv_username iv_email
         iv_phone iv_password iv_authCode opt_has_nul varchar_column].
    rewrite !has_nul_hashPassword, !varchar_hashPassword.
    destruct (varchar 100 (imp_username user)); [|done].
    destruct (varchar_column 100 (imp_firstName user)); [|done].
    destruct (varchar_column 100 (imp_lastName user)); [|done].
    destruct (varchar_column 255 (or_null (imp_email user))); [|done].
    destruct (varchar_column 20 (or_null (imp_phone user))); [|done].
    destruct (varchar_column 100 (or_null (imp_authCode user))); done.
  - destruct Hc' as [Hc'|Hc']; congruence.
  - destruct Hc as [Hc|Hc]; congruence.
Qed.

(** The three ways the loop body ends for one record: the user exists,
    the record is inserted, or the run stops, because the database
    refuses the username as a parameter of the query or the values of
    the insert. *)
Lemma import_one_cases (rng : nat -> byte) (now : Z)
    (db : Storage) (pos : nat) (user : ImportUser) :
  let pass := fst (import_password rng pos user) in
  let pos' := snd (import_password rng pos user) in
  (has_nul (imp_username user) = false
   /\ is_Some (findFirst_username db (imp_username user))
   /\ import_one rng now db pos user = (true, db, pos'))
  \/ (has_nul (imp_username user) = false
      /\ findFirst_username db (imp_username user) = None
      /\ exists (row : InsertValues) (t : string),
           stored_values (import_values user pass) = Some row
           /\ varchar 100 (imp_username user) = Some t
           /\ username (inserted_row db row now) = t
           /\ findFirst_username db t = None
           /\ import_one rng now db pos user
              = (true, {| rows := (rows db ++ [inserted_row db row now])%list;
                          serial := serial db + 1 |}, pos'))
  \/ ((has_nul (imp_username user) = true
       \/ (findFirst_username db (imp_username user) = None
           /\ insert_succeeds db (import_values user pass) = false))
      /\ exists db' : Storage,
           rows db' = rows db
           /\ serial db <= serial db'
           /\ import_one rng now db pos user = (false, db', pos')).
Proof.
  intros pass pos'. unfold import_one, pass, pos', getUserByUsername.
  destruct (import_password rng pos user) as [p q]. cbn [fst snd].
  destruct (has_nul (imp_username user)) eqn:Hnul.
  { right; right. split; [by left|]. exists db. split; [done|]. split; [lia|done]. }
  destruct (findFirst_username db (imp_username user)) as [u|] eqn:Hu.
  - left. split; [done|]. split; [by eexists|done].
  - right. pose proof (db_insert_fst db (import_values user p) now) as Hfst.
    destruct (db_insert db (import_values user p) now) as [[|] db'] eqn:Hi.
    + left. split; [done|]. split; [done|].
      apply db_insert_true in Hi as (row & _ & Hrow & Hacc & ->).
      destruct (stored_username (import_values user p) row (imp_username user)
                  eq_refl Hrow) as (t & Ht & Hcut).
      exists row, t. split; [done|]. split; [done|].
      apply insert_accepts_free in Hacc. rewrite Ht in Hacc.
      cbn [inserted_row username]. rewrite Ht. done.
    + right. split; [by right|]. exists db'.
      apply db_insert_false in Hi as [Hrows Hserial]. split; [done|].
      split; [lia|done].
Qed.

(** The import appends rows, each under the username the column makes of
    the one of a record of the file, and keeps the keys of the
    directory. *)
Lemma importUsers_appends (rng : nat -> byte) (now : Z)
    (userData : list ImportUser) (db : Storage) (pos : nat) :
  let db' := fst (fst (importUsers rng now userData db pos)) in
  (exists added : list User,
     rows db' = (rows db ++ added)%list
     /\ Forall (fun u => exists x, x ∈ userData
                  /\ varchar 100 (imp_username x) = Some (username u)) added)
  /\ (directory_keys db -> directory_keys db').
Proof.
  revert db pos. induction userData as [|user rest IH]; intros db pos; cbn zeta.
  - cbn [importUsers fst]. split; [|done]. exists []. by rewrite app_nil_r.
  - cbn [importUsers].
    destruct (import_one_cases rng now db pos user)
      as [(_ & _ & ->)|[(_ & Hfree & row & t & _ & Hcut & Hname & Hfree' & ->)
                       |(_ & db1 & Hrows1 & Hserial & ->)]].
    + destruct (IH db (snd (import_password rng pos user)))
        as [(added & Hrows & Hnames) Hkeys].
      split; [|done]. exists added. split; [done|].
      eapply Forall_impl; [exact Hnames|]. intros u (x & Hx & Hu). cbn beta.
      exists x. split; [|done]. by apply elem_of_cons; right.
    + set (u0 := inserted_row db row now) in *.
      destruct (IH {| rows := (rows db ++ [u0])%list; serial := serial db + 1 |}
                  (snd (import_password rng pos user)))
        as [(added & Hrows & Hnames) Hkeys].
      cbn [rows] in Hrows. split.
      * exists (u0 :: added). rewrite Hrows, <-app_assoc. split; [done|].
        apply Forall_cons. split.
        -- exists user. split; [by apply elem_of_cons; left|]. by rewrite Hname.
        -- eapply Forall_impl; [exact Hnames|]. intros u (x & Hx & Hu). cbn beta.
           exists x. split; [|done]. by apply elem_of_cons; right.
      * intros Hk. apply Hkeys. apply directory_keys_append; [done| |done].
        by rewrite Hname.
    + cbn [fst]. split.
      * exists []. split; [by rewrite app_nil_r|done].
      * intros Hk. by apply (directory_keys_serial db).
Qed.

Lemma importUsers_keeps_account (rng : nat -> byte) (now : Z)
    (userData : list ImportUser) (db : Storage) (pos : nat)
    (name : string) (u : User) :
  findFirst_username db name = Some u ->
  findFirst_username (fst (fst (importUsers rng now userData db pos))) name = Some u.
Proof.
  intros Hu.
  destruct (importUsers_appends rng now userData db pos) as [(added & Hrows & _) _].
  by eapply findFirst_username_app_l.
Qed.

(** A username of more than 100 characters that the table did not hold
    is not held after an import either: what a column stores has at most
    100. *)
Lemma importUsers_long_name (rng : nat -> byte) (now : Z)
    (userData : list ImportUser) (db : Storage) (pos : nat) (name : string) :
  (100 < String.length name)%nat ->
  findFirst_username db name = None ->
  findFirst_username (fst (fst (importUsers rng now userData db pos))) name = None.
Proof.
  intros Hlong Hfree.
  destruct (importUsers_appends rng now userData db pos)
    as [(added & Hrows & Hnames) _].
  apply findFirst_username_None. rewrite Hrows, fmap_app.
  apply findFirst_username_None in Hfree.
  intros [Hin|Hin]%elem_of_app; [done|].
  apply list_elem_of_fmap in Hin as (u & -> & Hu).
  rewrite Forall_forall in Hnames. destruct (Hnames u Hu) as (x & _ & Hcut).
  apply varchar_Some in Hcut as [Hlen _]. lia.
Qed.

Lemma importUsers_idem (rng rng' : nat -> byte) (now now' : Z)
    (userData : list ImportUser) (db : Storage) (pos pos' : nat) :
  let first := importUsers rng now userData db pos in
  let second := importUsers rng' now' userData (fst (fst first)) pos' in
  rows (fst (fst second)) = rows (fst (fst first))
  /\ (snd second = true -> snd first = true)
  /\ (Forall (fun x => (String.length (imp_username x) <= 100)%nat) userData ->
      snd second = snd first).
Proof.
  revert db pos pos'. induction userData as [|user rest IH]; intros db pos pos';
    cbn zeta; [done|].
  cbn [importUsers].
  destruct (import_one_cases rng now db pos user)
    as [(Hnul & [u Hu] & ->)
       |[(Hnul & Hfree & row & t & Hrow & Hcut & Hname & Hfree' & ->)
        |(Hstop & db1 & Hrows1 & _ & ->)]].
  - set (first := importUsers rng now rest db _).
    pose proof (importUsers_keeps_account rng now rest db
                  (snd (import_password rng pos user)) _ _ Hu) as Hkept.
    fold first in Hkept.
    destruct (import_one_cases rng' now' (fst (fst first)) pos' user)
      as [(_ & _ & ->)|[(_ & Hfree' & _)|([Hnul'|[Hfree' _]] & _)]];
      [|congruence..].
    destruct (IH db (snd (import_password rng pos user))
                (snd (import_password rng' pos' user))) as (H1 & H2 & H3).
    split; [done|]. split; [done|]. intros [_ Hrest]%Forall_cons. by apply H3.
  - set (u0 := inserted_row db row now) in *.
    set (db1 := {| rows := (rows db ++ [u0])%list; serial := serial db + 1 |}).
    set (first := importUsers rng now rest db1 _).
    assert (findFirst_username db1 t = Some u0) as Hrow0.
    { unfold findFirst_username in *. cbn [db1 rows]. rewrite find_app, Hfree'.
      cbn [List.find]. by rewrite Hname, String.eqb_refl. }
    pose proof (importUsers_keeps_account rng now rest db1
                  (snd (import_password rng pos user)) _ _ Hrow0) as Hkept.
    fold first in Hkept.
    destruct (import_one_cases rng' now' (fst (fst first)) pos' user)
      as [(_ & _ & ->)|[(_ & _ & row' & t' & _ & Hcut' & _ & Hfree2 & _)
                       |(Hstop & db2 & Hrows2 & _ & ->)]].
    + destruct (IH db1 (snd (import_password rng pos user))
                  (snd (import_password rng' pos' user))) as (H1 & H2 & H3).
      split; [done|]. split; [done|]. intros [_ Hrest]%Forall_cons. by apply H3.
    + congruence.
    + cbn [fst snd]. split; [done|]. split; [discriminate|].
      intros [Hlen _]%Forall_cons.
      apply varchar_Some in Hcut as [_ Hsame]. apply Hsame in Hlen. subst t.
      destruct Hstop as [Hnul'|[Hfree2 _]]; congruence.
  - cbn [fst snd].
    destruct (import_one_cases rng' now' db1 pos' user)
      as [(Hnul' & [u Hu] & _)
         |[(Hnul' & _ & row' & t' & Hrow' & _ & _ & Hacc' & Hone)
          |(_ & db2 & Hrows2 & _ & ->)]].
    + rewrite (findFirst_username_rows db db1 _ Hrows1) in Hu.
      destruct Hstop as [Hnul|[Hfree _]]; congruence.
    + destruct Hstop as [Hnul|[Hfree Hacc]]; [congruence|].
      apply (f_equal (fun x => fst (fst x))) in Hone. cbn [fst] in Hone.
      unfold import_one, getUserByUsername in Hone.
      destruct (import_password rng' pos' user) as [p q] eqn:Hp.
      rewrite Hnul', (findFirst_username_rows db db1 _ Hrows1), Hfree in Hone.
      cbn [fst] in Hone. rewrite db_insert_fst in Hone.
      rewrite (insert_succeeds_rows db db1 _ Hrows1) in Hone.
      rewrite (import_succeeds_any_entropy db user rng rng' pos pos') in Hacc.
      rewrite Hp in Hacc. cbn [fst] in Hacc. congruence.
    + cbn [fst snd]. split; [congruence|]. split; [discriminate|done].
Qed.


End ImportFacts.

(** X12: an import never alters or removes an account: it only appends
    rows, each under the username the column makes of the username of a
    record of the file (that username itself when it has at most 100
    characters); and it keeps the keys of the directory, so it never
    stores two accounts under one username, whatever the file repeats. *)
Theorem importUsers_only_appends (K : Scrypt) (rng : nat -> byte) (now : Z)
    (userData : list ImportUser) (db : Storage) (pos : nat) :
  directory_keys db ->
  let db' := fst (fst (importUsers rng now userData db pos)) in
  directory_keys db'
  /\ exists added : list User,
       rows db' = (rows db ++ added)%list
       /\ Forall (fun u => exists x, x ∈ userData
                    /\ varchar 100 (imp_username x) = Some (username u)) added.
Proof.
  intros Hkeys db'.
  destruct (importUsers_appends rng now userData db pos) as [Happ Hk].
  split; [by apply Hk|exact Happ].
Qed.

Lemma importUsers_only_appends_witness :
  directory_keys (Sample2.imported [Sample2.carol; Sample2.carol; Sample2.dave])
  /\ length (rows (Sample2.imported [Sample2.carol; Sample2.carol; Sample2.dave]))
     = 2%nat.
Proof.
  destruct (importUsers_only_appends Sample.toy_Scrypt (rng Sample.empty_world) 500
              [Sample2.carol; Sample2.carol; Sample2.dave] Sample2.empty_db 0)
    as [Hkeys _].
  - repeat split; constructor.
  - split; [exact Hkeys|reflexivity].
Defined.

(** X13: running the import a second time on the same file adds no
    account, whichever entropy and clock the second run has: the rows
    after the second run are the rows after the first.  The second run
    completes only if the first did, and exactly when the first did if no
    username of the file has more than 100 characters.  (A record stored
    under a cut username is not found by the second run, whose insert is
    then refused; a refused insert draws from the serial.) *)
Theorem importUsers_twice (K : Scrypt) (rng rng' : nat -> byte) (now now' : Z)
    (userData : list ImportUser) (db : Storage) (pos pos' : nat) :
  let first := importUsers rng now userData db pos in
  let second := importUsers rng' now' userData (fst (fst first)) pos' in
  rows (fst (fst second)) = rows (fst (fst first))
  /\ (snd second = true -> snd first = true)
  /\ (Forall (fun x => (String.length (imp_username x) <= 100)%nat) userData ->
      snd second = snd first).
Proof. apply importUsers_idem. Qed.

(** The loop stops at the first refused record: the records before it are
    imported, it and the records after it are not. *)
Example importUsers_stops :
  let run := @importUsers Sample.toy_Scrypt (rng Sample.empty_world) 500
               [Sample2.carol; Sample2.nameless; Sample2.dave]
               Sample2.empty_db 0 in
  username <$> rows (fst (fst run)) = ["carol"] /\ snd run = false
  /\ serial (fst (fst run)) = 3.
Proof. vm_compute. repeat split; reflexivity. Qed.

Section ImportedLogin.
Context {K : Scrypt}.


End ImportedLogin.







(** X16: the seeding script never adds its demo user.  On a table that
    holds a user it does nothing; on an empty table it hashes the demo
    password (reading 16 bytes of entropy) and its insert, which gives a
    username and a password only, is refused because [first_name] and
    [last_name] are declared [notNull]; the error is caught and the table
    has no row more, though the refused insert has drawn from the
    serial. *)
Theorem seed_never_inserts (K : Scrypt) (rng : nat -> byte) (now : Z)
    (table : Storage) (pos : nat) :
  seed rng now table pos
  = match rows table with
    | [] => ({| rows := []; serial := serial table + 1 |}, (pos + 16)%nat)
    | _ :: _ => (table, pos)
    end.
Proof.
  unfold seed. destruct (rows table) eqn:Hrows; [|done].
  destruct (hashPassword _ _ _) as [digest pos'] eqn:Hh.
  assert (pos' = (pos + 16)%nat) as -> by (by injection Hh).
  assert (digest = fst (hashPassword "password123" rng pos)) as ->
    by (by rewrite Hh).
  unfold db_insert, values_have_nul, stored_values, insert_accepts.
  cbn [iv_username iv_firstName iv_lastName iv_email iv_phone iv_password
       iv_authCode opt_has_nul varchar_column].
  rewrite has_nul_hashPassword, varchar_hashPassword. cbn. by rewrite Hrows.
Qed.

(** ** Failed logins *)

(** X17: a login form that the client's [loginSchema] accepts is never
    answered 400, and it is answered 401 exactly when the directory holds
    no account of its username or the password fails verification against
    the stored digest. *)
Theorem client_login_401_iff (K : Scrypt) (w : World) (ctx : Context)
    (data : LoginBody) :
  loginSchema data = true ->
  (forall body, fst (login w ctx data) <> json 400 body)
  /\ (fst (login w ctx data) = json 401 (message "Invalid username or password")
      <-> getUserByUsername (db w) (str (login_username data)) = Ok None
          \/ exists u : User,
               getUserByUsername (db w) (str (login_username data)) = Ok (Some u)
               /\ comparePasswords (str (login_password data)) (password u)
                  = Ok false).
Proof.
  unfold loginSchema. intros H.
  apply andb_prop in H as [[Hn Hp]%andb_prop Hc].
  apply string_min_truthy in Hn as [Hn _]; [|lia].
  apply string_min_truthy in Hp as [Hp _]; [|lia].
  apply string_min_truthy in Hc as [Hc _]; [|lia].
  unfold login, authenticate, LocalStrategy, given_username, given_password.
  rewrite !credential_truthy by done. rewrite Hc, Hn, Hp. cbn [negb orb].
  destruct (getUserByUsername (db w) (str (login_username data))) as [[u|]|e0];
    cbn [bind].
  - destruct (comparePasswords _ _) as [[|]|e] eqn:Hcmp; cbn [bind];
      rewrite ?req_login_Ok; cbn [fst].
    + split; [done|]. split; [discriminate|].
      intros [?|(v & [= <-] & Hv)]; congruence.
    + split; [done|]. split; [|done]. intros _. right. by exists u.
    + split; [done|]. split; [discriminate|].
      intros [?|(v & [= <-] & Hv)]; congruence.
  - cbn [fst]. split; [done|]. split; [by left|done].
  - cbn [fst]. split; [done|]. split; [discriminate|].
    intros [?|(v & ? & _)]; congruence.
Qed.

Lemma client_login_401_iff_witness :
  fst (@login Sample.toy_Scrypt Sample.alice_world (Sample.anonymous 4000)
         Sample.wrong_password)
  = json 401 (message "Invalid username or password").
Proof.
  destruct (client_login_401_iff Sample.toy_Scrypt Sample.alice_world
              (Sample.anonymous 4000) Sample.wrong_password eq_refl)
    as [_ [_ Hback]].
  apply Hback. right.
  destruct (getUserByUsername (db Sample.alice_world) "alice") as [[u|]|e] eqn:Hu;
    [|vm_compute in Hu; discriminate Hu..].
  exists u. split; [exact Hu|].
  vm_compute in Hu. injection Hu as <-. vm_compute. reflexivity.
Defined.

(** ** Which rejection a registration gets *)

Lemma message_inj (s t : string) : message s = message t -> s = t.
Proof.
  intros H. apply (f_equal (fun m : gmap string jsval => m !! "message")) in H.
  unfold message in H. rewrite !lookup_singleton_eq in H. congruence.
Qed.

Lemma json_message_eq (s1 s2 : Z) (t1 t2 : string) :
  json s1 (message t1) = json s2 (message t2) <-> s1 = s2 /\ t1 = t2.
Proof.
  split; [|by intros [-> ->]].
  intros H. split; [congruence|]. apply message_inj. congruence.
Qed.

Section Rejections.
Context {K : Scrypt} {E : EmailFormat}.

(** The answer of a registration that passed the three checks. *)
Lemma register_validated (w : World) (ctx : Context) (b : RegisterBody) :
  register_validation b = None ->
  ((exists found, getUserByUsername (db w) (str (reg_username b)) = Ok (Some found))
   /\ fst (register w ctx b) = json 400 (message "Username already exists"))
  \/ ((forall found,
         getUserByUsername (db w) (str (reg_username b)) <> Ok (Some found))
      /\ ((exists body, fst (register w ctx b) = json 201 body)
          \/ exists err, fst (register w ctx b) = next err)).
Proof.
  intros Hv. unfold register. rewrite Hv.
  destruct (getUserByUsername (db w) (str (reg_username b))) as [[u|]|e0].
  - left. split; [by eexists|done].
  - right. split; [done|]. destruct (hashPassword _ _ _) as [digest pos'].
    destruct (createUser _ _ _) as [[u|e] db']; rewrite ?req_login_Ok;
      [left|right]; by eexists.
  - right. split; [done|]. right. by eexists.
Qed.

End Rejections.

(** X18: the four rejections of [/api/register] come in a fixed order.
    The answer is the missing-fields message exactly when one of
    [username], [password], [firstName], [lastName] is absent or empty;
    the contact message exactly when those are present and [email] and
    [phone] are both absent or empty; the mismatch message exactly when
    fields and contact are present and [password] differs from
    [confirmPassword]; and "Username already exists" exactly when the
    three checks pass and the directory holds the username: whether a
    username is taken is told only to a form that is otherwise valid. *)
Theorem register_rejections (K : Scrypt) (E : EmailFormat)
    (w : World) (ctx : Context) (b : RegisterBody) :
  let required :=
    truthy (reg_username b) && truthy (reg_password b)
    && truthy (reg_firstName b) && truthy (reg_lastName b) in
  let contact := truthy (reg_email b) || truthy (reg_phone b) in
  (fst (register w ctx b)
   = json 400 (message
       "Missing required fields: username, password, firstName, and lastName are required")
   <-> required = false)
  /\ (fst (register w ctx b)
      = json 400 (message "Either email or phone number is required")
      <-> required = true /\ contact = false)
  /\ (fst (register w ctx b) = json 400 (message "Passwords do not match")
      <-> required = true /\ contact = true
          /\ reg_password b <> reg_confirmPassword b)
  /\ (fst (register w ctx b) = json 400 (message "Username already exists")
      <-> required = true /\ contact = true
          /\ reg_password b = reg_confirmPassword b
          /\ exists found,
               getUserByUsername (db w) (str (reg_username b)) = Ok (Some found)).
Proof.
  intros required contact.
  destruct (register_validation b) as [r|] eqn:Hv.
  - assert (fst (register w ctx b) = r) as -> by (unfold register; by rewrite Hv).
    unfold register_validation in Hv. subst required contact.
    destruct (truthy (reg_username b)), (truthy (reg_password b)),
      (truthy (reg_firstName b)), (truthy (reg_lastName b));
      cbn [negb orb andb] in *;
      try (injection Hv as <-; rewrite !json_message_eq;
           repeat split; intros; try done; intuition discriminate).
    destruct (truthy (reg_email b)), (truthy (reg_phone b));
      cbn [negb orb andb] in *;
      try (injection Hv as <-; rewrite !json_message_eq;
           repeat split; intros; try done; intuition discriminate);
      (case_bool_decide as Hpw; cbn [negb] in Hv; [discriminate|];
       injection Hv as <-; rewrite !json_message_eq;
       repeat split; intros; try done; try intuition discriminate;
       intuition congruence).
  - pose proof Hv as Hc. apply register_validation_None in Hc
      as (Hu & Hp & Hf & Hl & Hcontact & Hsame).
    assert (required = true) as -> by (subst required; by rewrite Hu, Hp, Hf, Hl).
    assert (contact = true) as ->
      by (subst contact; destruct Hcontact as [->| ->]; by rewrite ?orb_true_r).
    destruct (register_validated w ctx b Hv)
      as [[Hex ->]|[Hnone [[body ->]|[err ->]]]];
      rewrite ?json_message_eq; repeat split; intros; try done;
      try (intuition discriminate); try (intuition congruence).
    + destruct H as (_ & _ & _ & [u Hu']). by destruct (Hnone u).
    + destruct H as (_ & _ & _ & [u Hu']). by destruct (Hnone u).
Qed.



